(** * vector_demo: the tool-use conversation loop, the token chunker and the router

    A shallow embedding of the Python code of the notebooks:

    - [notebooks/agents/agent_rag.ipynb]: [process_tool_call],
      [ConversationManager] and [chatbot_interaction];
    - [notebooks/chatbot] (the vector store and agent notebooks, kept in the
      repository inside [chatbot/Anthropic/prompt-caching.md]):
      [chunk_text_by_tokens] and the second [process_tool_call];
    - [notebooks/agents/langchain.ipynb]: [route_question].

    Python text is modelled by Rocq's [string]: one [ascii] per code point,
    for code points below 256.  Calls to [print] are left out: they write to
    the notebook output and, on the values of this model, [json.dumps] always
    succeeds.

    The hosted services are modelled by what they answer. The chat model is
    a list of replies, taken in call order, each a response or an exception;
    the embedding service and the vector index are a function that answers a
    query or raises; the tokenizer gives the encoding of a model, and an
    encoding the token ids of a text, or raises. A call of the chat model
    that finds no reply left is still waiting: the interaction ends in
    [AwaitingModel]. *)

From Stdlib Require Import Bool Arith ZArith Lia List Ascii String DecimalString.
From Stdlib Require Import DecimalZ DecimalPos.
Import ListNotations.
Open Scope string_scope.

(** ** Python values, exceptions and the built-ins the notebooks use *)

Module Py.

(** The exceptions that the modelled code can meet. [ExternalError] stands for
    whatever a hosted service (chat model, embeddings, vector index) raises. *)
Inductive Exn : Type :=
| StopIteration
| KeyError (key : string)
| IndexError
| ValueError (msg : string)
| ExternalError (msg : string).

(** The result of evaluating a Python expression: a value or a raised
    exception. *)
Inductive Result (A : Type) : Type :=
| Ok (a : A)
| Raise (e : Exn).

Arguments Ok {A} a.
Arguments Raise {A} e.

Definition bind {A B : Type} (r : Result A) (k : A -> Result B) : Result B :=
  match r with
  | Ok a => k a
  | Raise e => Raise e
  end.

Notation "x <- r ;; k" := (bind r (fun x => k))
  (at level 61, r at next level, right associativity).

(** JSON-like values: what [json.loads] builds and what the tools return.
    A dict keeps its items in insertion order. JSON numbers are integers
    here. *)
#[warnings="-register-all"]
Inductive PyValue : Type :=
| PyNone
| PyBool (b : bool)
| PyInt (n : Z)
| PyStr (s : string)
| PyList (items : list PyValue)
| PyDict (items : list (string * PyValue)).

Definition Dict : Type := list (string * PyValue).

(** [d[key]]: the value bound to [key], or [KeyError]. *)
Fixpoint getitem (d : Dict) (key : string) : Result PyValue :=
  match d with
  | [] => Raise (KeyError key)
  | (k, v) :: d' => if String.eqb k key then Ok v else getitem d' key
  end.

(** [sep.join(parts)] *)
Fixpoint join (sep : string) (parts : list string) : string :=
  match parts with
  | [] => EmptyString
  | [p] => p
  | p :: ps => p ++ sep ++ join sep ps
  end.

(** [needle in s] on characters *)
Fixpoint has_char (c : ascii) (s : string) : bool :=
  match s with
  | EmptyString => false
  | String c' s' => Ascii.eqb c c' || has_char c s'
  end.

Definition hex_digit (n : nat) : ascii :=
  if (n <? 10)%nat then ascii_of_nat (48 + n) else ascii_of_nat (87 + n).

Definition hex2 (c : ascii) : string :=
  let n := nat_of_ascii c in
  String (hex_digit (n / 16)) (String (hex_digit (n mod 16)) EmptyString).

(** [str.isprintable] on one code point below 256. *)
Definition isprintable (c : ascii) : bool :=
  let n := nat_of_ascii c in
  (((32 <=? n) && (n <? 127)) || ((161 <=? n) && negb (n =? 173)))%nat.

Definition backslash : ascii := ascii_of_nat 92.
Definition squote : ascii := ascii_of_nat 39.
Definition dquote : ascii := ascii_of_nat 34.

Definition repr_char (quote c : ascii) : string :=
  if Ascii.eqb c quote || Ascii.eqb c backslash then String backslash (String c EmptyString)
  else if Ascii.eqb c (ascii_of_nat 9) then String backslash "t"
  else if Ascii.eqb c (ascii_of_nat 10) then String backslash "n"
  else if Ascii.eqb c (ascii_of_nat 13) then String backslash "r"
  else if isprintable c then String c EmptyString
  else String backslash (String "x" (hex2 c)).

Fixpoint repr_chars (quote : ascii) (s : string) : string :=
  match s with
  | EmptyString => EmptyString
  | String c s' => repr_char quote c ++ repr_chars quote s'
  end.

(** [repr(s)] for a string: single quotes unless the text holds a single
    quote and no double quote. *)
Definition repr_str (s : string) : string :=
  let quote := if has_char squote s && negb (has_char dquote s) then dquote else squote in
  String quote (repr_chars quote s ++ String quote EmptyString).

(** [repr(v)] *)
Fixpoint repr (v : PyValue) : string :=
  match v with
  | PyNone => "None"
  | PyBool true => "True"
  | PyBool false => "False"
  | PyInt n => NilZero.string_of_int (Z.to_int n)
  | PyStr s => repr_str s
  | PyList items => "[" ++ join ", " (map repr items) ++ "]"
  | PyDict items =>
      "{" ++ join ", " (map (fun kv => repr_str (fst kv) ++ ": " ++ repr (snd kv)) items) ++ "}"
  end.

(** [str(v)]: the text itself for a string, [repr(v)] otherwise. *)
Definition str (v : PyValue) : string :=
  match v with
  | PyStr s => s
  | _ => repr v
  end.

(** [c.lower()] on one code point below 256. *)
Definition lower_char (c : ascii) : ascii :=
  let n := nat_of_ascii c in
  if (((65 <=? n) && (n <=? 90))
      || ((192 <=? n) && (n <=? 222) && negb (n =? 215)))%nat
  then ascii_of_nat (n + 32)
  else c.

(** [s.lower()] *)
Fixpoint lower (s : string) : string :=
  match s with
  | EmptyString => EmptyString
  | String c s' => String (lower_char c) (lower s')
  end.

(** [s.startswith(p)] *)
Fixpoint startswith (p s : string) : bool :=
  match p, s with
  | EmptyString, _ => true
  | String a p', String b s' => Ascii.eqb a b && startswith p' s'
  | String _ _, EmptyString => false
  end.

(** [needle in s] *)
Fixpoint contains (needle s : string) : bool :=
  startswith needle s ||
  match s with
  | EmptyString => false
  | String _ s' => contains needle s'
  end.

(** A slice bound brought into [0 .. len], as [l[start:stop]] does it. *)
Definition clamp (len i : Z) : Z :=
  if (i <? 0)%Z then Z.max 0 (i + len) else Z.min i len.

(** [l[start:stop]] *)
Definition slice {A : Type} (l : list A) (start stop : Z) : list A :=
  let len := Z.of_nat (List.length l) in
  let lo := clamp len start in
  let hi := clamp len stop in
  firstn (Z.to_nat (hi - lo)) (skipn (Z.to_nat lo) l).

End Py.

Import Py.

(** ** The cat care assistant: [notebooks/agents/agent_rag.ipynb] *)

Module Agent.

(** The blocks of [response.content]: [TextBlock(text, type='text')] and
    [ToolUseBlock(id, input, name, type='tool_use')]. *)
Record ToolUse : Type := mkToolUse {
  id : string;
  input : Dict;
  name : string
}.

Inductive ContentBlock : Type :=
| TextBlock (text : string)
| ToolUseBlock (tool_use : ToolUse).

Definition block_type (block : ContentBlock) : string :=
  match block with
  | TextBlock _ => "text"
  | ToolUseBlock _ => "tool_use"
  end.

(** What [client.messages.create] returns, as far as the loop reads it. *)
Record Response : Type := mkResponse {
  stop_reason : string;
  content : list ContentBlock
}.

(** The three shapes of a message's ["content"]: the caller's text, the
    blocks of a response, and the list of dicts built for a tool result. *)
Inductive Content : Type :=
| Plain (text : string)
| Blocks (blocks : list ContentBlock)
| Dicts (items : list Dict).

(** [{"role": role, "content": content}] *)
Record Message : Type := mkMessage {
  role : string;
  message_content : Content
}.

(** [class ConversationManager] *)
Record ConversationManager : Type := mkManager {
  conversation_history : list Message
}.

Definition new_manager : ConversationManager :=
  {| conversation_history := [] |}.

Definition add_message (cm : ConversationManager) (role : string) (content : Content)
  : ConversationManager :=
  {| conversation_history := conversation_history cm ++ [mkMessage role content] |}.

Definition get_messages (cm : ConversationManager) : list Message :=
  conversation_history cm.

Definition clear_history (cm : ConversationManager) : ConversationManager :=
  {| conversation_history := [] |}.

(** The embedding service and the vector index behind [search_cat_facts],
    taken together: on the [n]-th tool call of an interaction and for a query
    they give the ['text'] metadata of the matches, or raise. *)
Definition CatFactsIndex : Type := nat -> PyValue -> Result (list PyValue).

Definition search_cat_facts (index : CatFactsIndex) (n : nat) (query : PyValue)
  : Result PyValue :=
  texts <- index n query ;;
  Ok (PyList texts).

Definition slots : PyValue :=
  PyList [PyStr "10:00-12:00"; PyStr "12:00-14:00"; PyStr "14:00-16:00"].

Definition check_vet_availability : PyValue :=
  PyDict [("Monday", slots); ("Tuesday", slots); ("Wednesday", slots);
          ("Thursday", slots); ("Friday", slots)].

Definition book_appointment (day time : PyValue) : PyValue :=
  PyDict [("status", PyStr "confirmed");
          ("appointment", PyDict [("day", day); ("time", time)]);
          ("booking_reference", PyStr "VET123")].

(** [process_tool_call]: an [if]/[elif] chain without [else]; a name that
    matches no branch falls off the end of the function, which returns
    [None]. *)
Definition process_tool_call (index : CatFactsIndex) (n : nat)
    (tool_name : string) (tool_input : Dict) : Result PyValue :=
  if String.eqb tool_name "search_cat_facts" then
    query <- getitem tool_input "query" ;;
    search_cat_facts index n query
  else if String.eqb tool_name "check_vet_availability" then
    Ok check_vet_availability
  else if String.eqb tool_name "book_appointment" then
    day <- getitem tool_input "day" ;;
    time <- getitem tool_input "time" ;;
    Ok (book_appointment day time)
  else Ok PyNone.

(** [next(block for block in response.content if block.type == "tool_use")] *)
Fixpoint next_tool_use (blocks : list ContentBlock) : Result ToolUse :=
  match blocks with
  | [] => Raise StopIteration
  | TextBlock _ :: rest => next_tool_use rest
  | ToolUseBlock tool_use :: _ => Ok tool_use
  end.

(** [next((block.text for block in response.content if hasattr(block, "text")), None)] *)
Fixpoint first_text (blocks : list ContentBlock) : option string :=
  match blocks with
  | [] => None
  | TextBlock text :: _ => Some text
  | ToolUseBlock _ :: rest => first_text rest
  end.

(** What an interaction does to the outside, in order: the requests sent to
    the chat model (with the messages they carry) and the calls of
    [process_tool_call]. *)
Inductive Event : Type :=
| ModelCall (messages : list Message)
| ToolCall (tool_name : string) (tool_input : Dict).

(** The conversation manager (a mutable object shared with the caller) and
    the events so far. *)
Record State : Type := mkState {
  manager : ConversationManager;
  log : list Event
}.

Definition record (ev : Event) (st : State) : State :=
  {| manager := manager st; log := log st ++ [ev] |}.

Definition say (role : string) (content : Content) (st : State) : State :=
  {| manager := add_message (manager st) role content; log := log st |}.

Definition is_model_call (ev : Event) : bool :=
  match ev with ModelCall _ => true | ToolCall _ _ => false end.

Definition is_tool_call (ev : Event) : bool :=
  match ev with ModelCall _ => false | ToolCall _ _ => true end.

Definition model_calls (evs : list Event) : nat := List.length (filter is_model_call evs).
Definition tool_calls (evs : list Event) : nat := List.length (filter is_tool_call evs).

(** How a call of [chatbot_interaction] ends: it returns
    [(final_response, conversation_manager)], an exception leaves it, or it
    waits for a reply of the chat model that does not come. The state is the
    one the caller's manager object is left in. *)
Inductive Outcome : Type :=
| Returned (final_response : option string) (st : State)
| Raised (e : Exn) (st : State)
| AwaitingModel (st : State).

Definition final_state (o : Outcome) : State :=
  match o with
  | Returned _ st => st
  | Raised _ st => st
  | AwaitingModel st => st
  end.

Definition history (st : State) : list Message :=
  get_messages (manager st).

(** [{"type": "tool_result", "tool_use_id": ..., "content": ...}] *)
Definition tool_result_block (tool_use_id content : string) : Dict :=
  [("type", PyStr "tool_result");
   ("tool_use_id", PyStr tool_use_id);
   ("content", PyStr content)].

(** The [while response.stop_reason == "tool_use"] loop and the statements
    after it. [replies] are the coming answers of [client.messages.create],
    in call order: a response or an exception. *)
Fixpoint tool_loop (index : CatFactsIndex) (replies : list (Result Response))
    (response : Response) (st : State) : Outcome :=
  if String.eqb (stop_reason response) "tool_use" then
    match next_tool_use (content response) with
    | Raise e => Raised e st
    | Ok tool_use =>
        let tool_name := name tool_use in
        let tool_input := input tool_use in
        let st1 := record (ToolCall tool_name tool_input) st in
        match process_tool_call index (tool_calls (log st)) tool_name tool_input with
        | Raise e => Raised e st1
        | Ok tool_result =>
            let st2 := say "assistant" (Blocks (content response)) st1 in
            let st3 :=
              say "user" (Dicts [tool_result_block (id tool_use) (str tool_result)]) st2 in
            let st4 := record (ModelCall (history st3)) st3 in
            match replies with
            | [] => AwaitingModel st4
            | Raise e :: _ => Raised e st4
            | Ok response' :: replies' => tool_loop index replies' response' st4
            end
        end
    end
  else Returned (first_text (content response)) st.

(** [chatbot_interaction(user_message, conversation_manager=None)] *)
Definition chatbot_interaction (index : CatFactsIndex) (replies : list (Result Response))
    (user_message : string) (conversation_manager : option ConversationManager)
  : Outcome :=
  let conversation_manager :=
    match conversation_manager with
    | None => new_manager
    | Some cm => cm
    end in
  let st := say "user" (Plain user_message) (mkState conversation_manager []) in
  let st' := record (ModelCall (history st)) st in
  match replies with
  | [] => AwaitingModel st'
  | Raise e :: _ => Raised e st'
  | Ok response :: replies' => tool_loop index replies' response st'
  end.

(** *** Notions used to state the properties of the loop *)

(** A response that asks for a tool: the test of the [while]. *)
Definition requests_tool (response : Response) : bool :=
  String.eqb (stop_reason response) "tool_use".

Definition user_entry (user_message : string) : Message :=
  mkMessage "user" (Plain user_message).

Definition assistant_message (response : Response) : Message :=
  mkMessage "assistant" (Blocks (content response)).

Definition tool_result_message (tool_use : ToolUse) (tool_result : PyValue) : Message :=
  mkMessage "user" (Dicts [tool_result_block (id tool_use) (str tool_result)]).

(** The history of the manager passed by the caller ([None]: a new one). *)
Definition prior (conversation_manager : option ConversationManager) : list Message :=
  match conversation_manager with
  | None => []
  | Some cm => conversation_history cm
  end.

(** One more request to the chat model, then the loop: what follows every
    completed tool round, and the user's message at the start. *)
Definition resume (index : CatFactsIndex) (replies : list (Result Response)) (st : State)
  : Outcome :=
  let st' := record (ModelCall (history st)) st in
  match replies with
  | [] => AwaitingModel st'
  | Raise e :: _ => Raised e st'
  | Ok response :: replies' => tool_loop index replies' response st'
  end.

(** The state after a tool round that served [tool_use] with [tool_result]. *)
Definition after_round (st : State) (response : Response) (tool_use : ToolUse)
    (tool_result : PyValue) : State :=
  say "user" (Dicts [tool_result_block (id tool_use) (str tool_result)])
    (say "assistant" (Blocks (content response))
       (record (ToolCall (name tool_use) (input tool_use)) st)).

(** The two messages of a tool round, when the round completes: the first
    [tool_use] block is found and its call, the [n]-th of the interaction,
    returns. *)
Definition tool_round (index : CatFactsIndex) (n : nat) (response : Response)
  : Result (list Message) :=
  tool_use <- next_tool_use (content response) ;;
  tool_result <- process_tool_call index n (name tool_use) (input tool_use) ;;
  Ok [assistant_message response; tool_result_message tool_use tool_result].

(** The messages of a run of tool rounds that all complete, the first of
    them being the [n]-th of the interaction. *)
Fixpoint transcript (index : CatFactsIndex) (n : nat) (requests : list Response)
  : Result (list Message) :=
  match requests with
  | [] => Ok []
  | response :: requests' =>
      round <- tool_round index n response ;;
      later <- transcript index (S n) requests' ;;
      Ok (round ++ later)%list
  end.

(** A stretch of history made of tool rounds, the first being the [n]-th of
    the interaction: an assistant message with the blocks of a response, then
    a user message with one [tool_result] dict; its [tool_use_id] is the id of
    the first [tool_use] block and its content the text of what the call for
    that block returned. *)
Inductive Exchange (index : CatFactsIndex) : nat -> list Message -> Prop :=
| Exchange_nil (n : nat) : Exchange index n []
| Exchange_round (n : nat) (blocks : list ContentBlock) (tool_use : ToolUse)
    (tool_result : PyValue) (later : list Message) :
    next_tool_use blocks = Ok tool_use ->
    process_tool_call index n (name tool_use) (input tool_use) = Ok tool_result ->
    Exchange index (S n) later ->
    Exchange index n
      (mkMessage "assistant" (Blocks blocks)
       :: mkMessage "user" (Dicts [tool_result_block (id tool_use) (str tool_result)])
       :: later).

(** Every request carried a beginning of the history as it is in the end. *)
Definition sent_prefixes (st : State) : Prop :=
  forall msgs, In (ModelCall msgs) (log st) -> exists later, history st = (msgs ++ later)%list.

(** A tool round that completed: the response that asked for the tool, the
    block that was served and what the call for it returned. *)
Record Served : Type := mkServed {
  served_response : Response;
  served_tool_use : ToolUse;
  served_result : PyValue
}.

(** The two messages that a completed round leaves in the history, written
    out. *)
Definition served_messages (s : Served) : list Message :=
  [mkMessage "assistant" (Blocks (content (served_response s)));
   mkMessage "user"
     (Dicts [[("type", PyStr "tool_result");
              ("tool_use_id", PyStr (id (served_tool_use s)));
              ("content", PyStr (str (served_result s)))]])].

(** The call of [process_tool_call] made in a round. *)
Definition served_call (s : Served) : Event :=
  ToolCall (name (served_tool_use s)) (input (served_tool_use s)).

(** The rounds of [served] are tool rounds, the first being the [n]-th of the
    interaction: each response stops for ["tool_use"], the block served is
    its first [tool_use] block, and the result is what [process_tool_call]
    returned for the name and input of that block. *)
Fixpoint serves (index : CatFactsIndex) (n : nat) (served : list Served) : Prop :=
  match served with
  | [] => True
  | s :: later =>
      requests_tool (served_response s) = true /\
      next_tool_use (content (served_response s)) = Ok (served_tool_use s) /\
      process_tool_call index n (name (served_tool_use s)) (input (served_tool_use s))
      = Ok (served_result s) /\
      serves index (S n) later
  end.

(** How an interaction ends after its completed rounds, [n] of them: on the
    replies [rest] that are left, with the tool call [failed] that did not
    return, if there is one. *)
Inductive Ending (index : CatFactsIndex) (n : nat)
  : list (Result Response) -> list Event -> Outcome -> Prop :=
| Ending_waiting (st : State) :
    Ending index n [] [] (AwaitingModel st)
| Ending_model_raises (e : Exn) (rest : list (Result Response)) (st : State) :
    Ending index n (Raise e :: rest) [] (Raised e st)
| Ending_returns (final : Response) (rest : list (Result Response)) (st : State) :
    requests_tool final = false ->
    Ending index n (Ok final :: rest) [] (Returned (first_text (content final)) st)
| Ending_no_tool_use (r : Response) (rest : list (Result Response)) (e : Exn) (st : State) :
    requests_tool r = true ->
    next_tool_use (content r) = Raise e ->
    Ending index n (Ok r :: rest) [] (Raised e st)
| Ending_tool_raises (r : Response) (rest : list (Result Response)) (tu : ToolUse)
    (e : Exn) (st : State) :
    requests_tool r = true ->
    next_tool_use (content r) = Ok tu ->
    process_tool_call index n (name tu) (input tu) = Raise e ->
    Ending index n (Ok r :: rest) [ToolCall (name tu) (input tu)] (Raised e st).

End Agent.

(** ** The document chatbot: [notebooks/chatbot] *)

Module VectorStore.

(** A [tiktoken] encoding: text to token ids and back. [encode(text)] raises
    [ValueError] on a text that holds the name of a special token (its
    [disallowed_special] is ["all"] when not given); [decode] is called on
    slices of what [encode] gave, on which it does not raise. *)
Record Encoding : Type := mkEncoding {
  encode : string -> Result (list Z);
  decode : list Z -> string
}.

(** The [tiktoken] module: [encoding_for_model(model_name)] gives the
    encoding of a model or raises, as it does for a name it does not know. *)
Record Tiktoken : Type := mkTiktoken {
  encoding_for_model : string -> Result Encoding
}.

(** The [while start < len(token_ids)] loop of [chunk_text_by_tokens].
    [None]: the loop is still running when the fuel is used up. *)
Fixpoint chunk_loop (fuel : nat) (encoding : Encoding) (token_ids : list Z)
    (chunk_size overlap : Z) (start : Z) (chunks : list string)
  : option (list string) :=
  match fuel with
  | O => None
  | S fuel' =>
      if (start <? Z.of_nat (List.length token_ids))%Z then
        let end_ := (start + chunk_size)%Z in
        let chunk_ids := slice token_ids start end_ in
        let chunk_text := decode encoding chunk_ids in
        chunk_loop fuel' encoding token_ids chunk_size overlap
          (start + (chunk_size - overlap))%Z (chunks ++ [chunk_text])%list
      else Some chunks
  end.

(** [chunk_text_by_tokens(text, chunk_size=500, overlap=100, model_name)]:
    the chunks, or the exception of [encoding_for_model] or [encode], which
    the function does not catch. *)
Definition chunk_text_by_tokens (fuel : nat) (tiktoken : Tiktoken) (text : string)
    (chunk_size overlap : Z) (model_name : string) : option (Result (list string)) :=
  match encoding_for_model tiktoken model_name with
  | Raise e => Some (Raise e)
  | Ok encoding =>
      match encode encoding text with
      | Raise e => Some (Raise e)
      | Ok token_ids =>
          match chunk_loop fuel encoding token_ids chunk_size overlap 0%Z [] with
          | None => None
          | Some chunks => Some (Ok chunks)
          end
      end
  end.

(** The token ids of the [k]-th chunk. *)
Definition window (token_ids : list Z) (chunk_size overlap : Z) (k : nat) : list Z :=
  let start := (Z.of_nat k * (chunk_size - overlap))%Z in
  slice token_ids start (start + chunk_size)%Z.

(** How many chunks a text of [n] tokens gives when the start advances by
    [step] tokens. *)
Definition chunk_count (n : nat) (step : Z) : nat :=
  Z.to_nat ((Z.of_nat n + step - 1) / step).

(** For examples: an encoding with one token per character, which refuses,
    as the encodings of [tiktoken] do, a text that names the special token
    [<|endoftext|>]; and a [tiktoken] that knows one model. *)
Definition endoftext : string := "<|endoftext|>".

Definition char_encoding : Encoding :=
  {| encode := fun s =>
       if contains endoftext s
       then Raise (ValueError "Encountered text corresponding to disallowed special token '<|endoftext|>'.")
       else Ok (map (fun c => Z.of_nat (nat_of_ascii c)) (list_ascii_of_string s));
     decode := fun ids => string_of_list_ascii (map (fun i => ascii_of_nat (Z.to_nat i)) ids) |}.

Definition char_tiktoken : Tiktoken :=
  {| encoding_for_model := fun model_name =>
       if String.eqb model_name "gpt-3.5-turbo" then Ok char_encoding
       else Raise (KeyError model_name) |}.

End VectorStore.

Module RagChat.

(** The services behind the two tools of the document chatbot. *)
Record Services : Type := mkServices {
  (* [semantic_search]: the matches, as dicts of id, score and metadata *)
  semantic_search : PyValue -> Result (list PyValue);
  (* [open(file_path).read()]: the text, or the message of the exception *)
  read_file : PyValue -> string + string
}.

(** [read_full_document]: an exception becomes the returned text. *)
Definition read_full_document (services : Services) (file_path : PyValue) : PyValue :=
  match read_file services file_path with
  | inl text => PyStr text
  | inr e => PyStr ("Error reading file " ++ str file_path ++ ": " ++ e)
  end.

(** The [process_tool_call] of the document chatbot: its chain ends in an
    [else] that answers an unknown name. *)
Definition process_tool_call (services : Services) (tool_name : string) (tool_input : Dict)
  : Result PyValue :=
  if String.eqb tool_name "search_pinecone" then
    query <- getitem tool_input "questions_to_search" ;;
    matches <- semantic_search services query ;;
    Ok (PyDict [("matches", PyList matches)])
  else if String.eqb tool_name "read_full_document" then
    file_path <- getitem tool_input "file_path" ;;
    Ok (read_full_document services file_path)
  else Ok (PyStr ("Unknown tool: " ++ tool_name)).

End RagChat.

(** ** The router: [notebooks/agents/langchain.ipynb] *)

Module Router.

(** A message of the graph state, as far as the router reads it. *)
Record GraphMessage : Type := mkGraphMessage {
  content : string
}.

Record MessagesState : Type := mkMessagesState {
  messages : list GraphMessage
}.

(** [messages[-1]] *)
Fixpoint last_message (msgs : list GraphMessage) : Result GraphMessage :=
  match msgs with
  | [] => Raise IndexError
  | [m] => Ok m
  | _ :: rest => last_message rest
  end.

Definition newline : string := String (ascii_of_nat 10) EmptyString.

Definition evaluation_prompt (question : string) : string :=
  "Determine if the following question is about cats/felines. " ++ newline ++
  "    Question: " ++ question ++ newline ++
  "    Reply with just 'cat_knowledge' or 'general_knowledge'.".

(** [route_question(state)]; [router_model] gives the text of the reply of
    the routing model to a prompt. *)
Definition route_question (router_model : string -> string) (state : MessagesState)
  : Result string :=
  last <- last_message (messages state) ;;
  let question := content last in
  let response := router_model (evaluation_prompt question) in
  let route :=
    if contains "cat_knowledge" (lower response) then "cat_knowledge"
    else "general_knowledge" in
  Ok route.

(** The reply that [route_question] reads for a state. *)
Definition reply_for (router_model : string -> string) (state : MessagesState) : string :=
  router_model (evaluation_prompt (content (List.last (messages state) (mkGraphMessage EmptyString)))).




End Router.

(** ** Sample exchanges, after the runs recorded in the notebooks *)

Module Demo.

Import Agent.

(** An index that knows one fact. *)
Definition facts_index : CatFactsIndex :=
  fun _ _ => Ok [PyStr "Cats have five toes on each front paw, but only four toes on each back paw."].

(** An index that cannot be reached. *)
Definition failing_index : CatFactsIndex :=
  fun _ _ => Raise (ExternalError "Connection error.").

Definition toes_question : string := "How many toes does a cat have?".

Definition toes_request : Response :=
  {| stop_reason := "tool_use";
     content :=
       [TextBlock "<thinking>The most relevant tool for this query is search_cat_facts.</thinking>";
        ToolUseBlock {| id := "toolu_01L6M882cTYKpQg8uiRRgovG";
                        input := [("query", PyStr "How many toes does a cat have?")];
                        name := "search_cat_facts" |}] |}.

Definition toes_answer : Response :=
  {| stop_reason := "end_turn";
     content := [TextBlock "A typical cat has 18 toes."] |}.

Definition booking_request : Response :=
  {| stop_reason := "tool_use";
     content :=
       [TextBlock "<thinking>I now have all the required parameters.</thinking>";
        ToolUseBlock {| id := "toolu_01HjYb3mfs7jGM3J7ebuBVPc";
                        input := [("day", PyStr "Thursday"); ("time", PyStr "12:00-14:00")];
                        name := "book_appointment" |}] |}.

Definition booking_answer : Response :=
  {| stop_reason := "end_turn";
     content := [TextBlock "Your booking reference number is VET123."] |}.

(** A booking request whose input lacks the required ["time"]. *)
Definition incomplete_booking : Response :=
  {| stop_reason := "tool_use";
     content :=
       [ToolUseBlock {| id := "toolu_02"; input := [("day", PyStr "Thursday")];
                        name := "book_appointment" |}] |}.

(** A request for a tool that [process_tool_call] does not know. *)
Definition add_request : Response :=
  {| stop_reason := "tool_use";
     content :=
       [ToolUseBlock {| id := "toolu_add"; input := [("a", PyInt 2); ("b", PyInt 3)];
                        name := "add" |}] |}.

Definition add_answer : Response :=
  {| stop_reason := "end_turn"; content := [TextBlock "The sum is 5."] |}.

(** A response that stops for a tool and names none. *)
Definition empty_request : Response :=
  {| stop_reason := "tool_use"; content := [TextBlock "Let me look that up."] |}.

(** A response with two [tool_use] blocks. *)
Definition double_request : Response :=
  {| stop_reason := "tool_use";
     content :=
       [TextBlock "Checking the calendar, then booking.";
        ToolUseBlock {| id := "toolu_a"; input := []; name := "check_vet_availability" |};
        ToolUseBlock {| id := "toolu_b";
                        input := [("day", PyStr "Monday"); ("time", PyStr "10:00-12:00")];
                        name := "book_appointment" |}] |}.

(** A response with two [tool_use] blocks, the first of them a search. *)
Definition search_then_check : Response :=
  {| stop_reason := "tool_use";
     content :=
       [TextBlock "Looking it up, then checking the calendar.";
        ToolUseBlock {| id := "toolu_s"; input := [("query", PyStr "toes")];
                        name := "search_cat_facts" |};
        ToolUseBlock {| id := "toolu_c"; input := []; name := "check_vet_availability" |}] |}.

(** A final response without text. *)
Definition silent_answer : Response :=
  {| stop_reason := "end_turn"; content := [] |}.

(** A manager that already holds an earlier exchange. *)
Definition earlier : ConversationManager :=
  {| conversation_history := [user_entry "Hello"] |}.

Definition no_services : RagChat.Services :=
  {| RagChat.semantic_search := fun _ => Ok [];
     RagChat.read_file := fun _ => inr "No such file or directory" |}.

End Demo.

(** ** Text files and the cat facts store: [notebooks/vector_stores] *)

Module Text.

Definition LF : ascii := ascii_of_nat 10.
Definition CR : ascii := ascii_of_nat 13.

(** [c.isspace()] on one code point below 256. *)
Definition isspace (c : ascii) : bool :=
  let n := nat_of_ascii c in
  (((9 <=? n) && (n <=? 13)) || ((28 <=? n) && (n <=? 32)) || (n =? 133) || (n =? 160))%nat.

(** [s.lstrip()] *)
Fixpoint lstrip (s : string) : string :=
  match s with
  | EmptyString => EmptyString
  | String c s' => if isspace c then lstrip s' else s
  end.

(** [s.rstrip()] *)
Fixpoint rstrip (s : string) : string :=
  match s with
  | EmptyString => EmptyString
  | String c s' =>
      match rstrip s' with
      | EmptyString => if isspace c then EmptyString else String c EmptyString
      | r => String c r
      end
  end.

(** [s.strip()] *)
Definition strip (s : string) : string := rstrip (lstrip s).

(** What a file opened with [open(path, 'r')] hands out for its decoded
    text: a carriage return with a line feed, and a carriage return alone,
    become one line feed. *)
Fixpoint translate_newlines (s : string) : string :=
  match s with
  | EmptyString => EmptyString
  | String c s' =>
      if Ascii.eqb c CR then
        String LF
          match s' with
          | EmptyString => EmptyString
          | String c' s'' =>
              if Ascii.eqb c' LF then translate_newlines s'' else translate_newlines s'
          end
      else String c (translate_newlines s')
  end.

(** The lines of a text, each with its line feed when it has one. *)
Fixpoint lines (s : string) : list string :=
  match s with
  | EmptyString => []
  | String c s' =>
      if Ascii.eqb c LF then String LF EmptyString :: lines s'
      else
        match lines s' with
        | [] => [String c EmptyString]
        | l :: ls => String c l :: ls
        end
  end.

(** [f.readlines()] on a file opened in text mode, from its decoded text. *)
Definition readlines (text : string) : list string :=
  lines (translate_newlines text).

(** [str(i)] for an index. *)
Definition str_index (i : nat) : string := str (PyInt (Z.of_nat i)).

(** A text of lines, each followed by [eol]. *)
Fixpoint file_of_lines (eol : string) (ls : list string) : string :=
  match ls with
  | [] => EmptyString
  | l :: ls' => l ++ eol ++ file_of_lines eol ls'
  end.

End Text.

Module CatFacts.

Import Text.

(** [load_passages(file_path)] of the Pinecone and Weaviate notebooks, from
    the decoded text of the file. *)
Definition load_passages (text : string) : list string :=
  map strip (readlines text).

(** An entry of [vectors]:
    [{"id": ..., "values": ..., "metadata": {"text": ...}}], for embeddings
    of any type [E]. *)
Record Vector (E : Type) : Type := mkVector {
  id : string;
  values : E;
  metadata_text : string
}.

Arguments mkVector {E} id values metadata_text.
Arguments id {E} v.
Arguments values {E} v.
Arguments metadata_text {E} v.

(** [data[i]] *)
Definition item {A : Type} (data : list A) (i : nat) : Result A :=
  match nth_error data i with
  | Some x => Ok x
  | None => Raise IndexError
  end.

(** The comprehension over [enumerate(embeddings.data)] that builds
    [vectors], from index [i] on. *)
Fixpoint vectors_from {E : Type} (data : list string) (i : nat) (embeddings : list E)
  : Result (list (Vector E)) :=
  match embeddings with
  | [] => Ok []
  | embedding :: rest =>
      text <- item data i ;;
      later <- vectors_from data (S i) rest ;;
      Ok (mkVector (str_index i) embedding text :: later)
  end.

Definition vectors {E : Type} (data : list string) (embeddings : list E)
  : Result (list (Vector E)) :=
  vectors_from data 0 embeddings.

(** The batch loop of the Weaviate notebook over [enumerate(data)], from
    index [i] on: the objects added, each a fact with its vector, and the
    exception that ended the loop, if one did. *)
Fixpoint add_objects_from {E : Type} (embeddings : list E) (i : nat) (data : list string)
  : list (string * E) * option Exn :=
  match data with
  | [] => ([], None)
  | cat_fact :: rest =>
      match item embeddings i with
      | Raise e => ([], Some e)
      | Ok vector =>
          let (added, ended) := add_objects_from embeddings (S i) rest in
          ((cat_fact, vector) :: added, ended)
      end
  end.

Definition add_objects {E : Type} (data : list string) (embeddings : list E)
  : list (string * E) * option Exn :=
  add_objects_from embeddings 0 data.

(** The vector made of an index, a passage and an embedding. *)
Definition entry {E : Type} (p : nat * string * E) : Vector E :=
  mkVector (str_index (fst (fst p))) (snd p) (snd (fst p)).

End CatFacts.

(** ** Filling the document store: the vector store notebook *)

Module Ingest.

Import Text.
Import VectorStore.

(** [s.endswith(suffix)] *)
Fixpoint endswith (suffix s : string) : bool :=
  String.eqb suffix s ||
  match s with
  | EmptyString => false
  | String _ s' => endswith suffix s'
  end.

(** [d[key] = value] on a dict kept in insertion order. *)
Fixpoint setitem {V : Type} (d : list (string * V)) (key : string) (value : V)
  : list (string * V) :=
  match d with
  | [] => [(key, value)]
  | (k, v) :: d' =>
      if String.eqb k key then (k, value) :: d' else (k, v) :: setitem d' key value
  end.

(** [d[key]] *)
Fixpoint lookup {V : Type} (d : list (string * V)) (key : string) : Result V :=
  match d with
  | [] => Raise (KeyError key)
  | (k, v) :: d' => if String.eqb k key then Ok v else lookup d' key
  end.

(** A file met by [os.walk(data_dir)]: its name, its path relative to
    [data_dir], and what opening and reading it gives. *)
Record FileEntry : Type := mkFileEntry {
  file : string;
  relative_path : string;
  reading : Result string
}.

(** The two loops of [load_passages(data_dir)] over the files in walk order,
    with the passages collected so far. The [try] holds the reading, the
    [strip] and the call of [chunk_text_by_tokens]: an exception of any of
    them is printed and the file left out. [None]: the chunker is still
    running when the fuel is used up. *)
Fixpoint load_from (fuel : nat) (tiktoken : Tiktoken) (files : list FileEntry)
    (passages : list (string * list string)) : option (list (string * list string)) :=
  match files with
  | [] => Some passages
  | f :: rest =>
      if endswith ".md" (file f) then
        match reading f with
        | Raise _ => load_from fuel tiktoken rest passages
        | Ok full_text =>
            let full_text := strip full_text in
            match chunk_text_by_tokens fuel tiktoken full_text 500 100 "gpt-3.5-turbo" with
            | None => None
            | Some (Raise _) => load_from fuel tiktoken rest passages
            | Some (Ok chunked_passages) =>
                load_from fuel tiktoken rest
                  (setitem passages (relative_path f) chunked_passages)
            end
        end
      else load_from fuel tiktoken rest passages
  end.

Definition load_passages (fuel : nat) (tiktoken : Tiktoken) (files : list FileEntry)
  : option (list (string * list string)) :=
  load_from fuel tiktoken files [].

(** An entry of [vectors]: id, values and the metadata [source_file] and
    [text]. *)
Record Vector (E : Type) : Type := mkVector {
  id : string;
  values : E;
  source_file : string;
  text : string
}.

Arguments mkVector {E} id values source_file text.
Arguments id {E} v.
Arguments values {E} v.
Arguments source_file {E} v.
Arguments text {E} v.

(** [f"{file_path}_{i}"] *)
Definition vector_id (file_path : string) (i : nat) : string :=
  file_path ++ "_" ++ str_index i.

(** The comprehension that builds [file_vectors], from index [i] on. *)
Fixpoint file_vectors_from {E : Type} (data : list (string * list string))
    (file_path : string) (i : nat) (embeddings : list E) : Result (list (Vector E)) :=
  match embeddings with
  | [] => Ok []
  | embedding :: rest =>
      chunks <- lookup data file_path ;;
      chunk <- CatFacts.item chunks i ;;
      later <- file_vectors_from data file_path (S i) rest ;;
      Ok (mkVector (vector_id file_path i) embedding file_path chunk :: later)
  end.

(** The loop over [embedding_dict.items()] that fills [vectors]. *)
Fixpoint prepare_vectors {E : Type} (data : list (string * list string))
    (embedding_dict : list (string * list E)) : Result (list (Vector E)) :=
  match embedding_dict with
  | [] => Ok []
  | (file_path, file_embeddings) :: rest =>
      file_vectors <- file_vectors_from data file_path 0 file_embeddings ;;
      later <- prepare_vectors data rest ;;
      Ok (file_vectors ++ later)%list
  end.

(** The decoded windows of 500 tokens that start every 400 tokens. *)
Definition chunks_of (encoding : Encoding) (token_ids : list Z) : list string :=
  map (fun k => decode encoding (window token_ids 500 100 k))
    (seq 0 (chunk_count (List.length token_ids) 400)).

(** The token ids that [load_passages] gets for a file, with their encoding:
    the file is read, and its stripped text encoded for ["gpt-3.5-turbo"]. *)
Definition tokens_of (tiktoken : Tiktoken) (f : FileEntry) : Result (Encoding * list Z) :=
  full_text <- reading f ;;
  encoding <- encoding_for_model tiktoken "gpt-3.5-turbo" ;;
  token_ids <- encode encoding (strip full_text) ;;
  Ok (encoding, token_ids).

(** Whether a file gets an entry, and the entry. *)
Definition loadable (tiktoken : Tiktoken) (f : FileEntry) : bool :=
  endswith ".md" (file f) &&
  match tokens_of tiktoken f with Ok _ => true | Raise _ => false end.

Definition loaded (tiktoken : Tiktoken) (f : FileEntry) : string * list string :=
  (relative_path f,
   match tokens_of tiktoken f with
   | Ok (encoding, token_ids) => chunks_of encoding token_ids
   | Raise _ => []
   end).

Definition underscore : ascii := ascii_of_nat 95.

End Ingest.

(** ** The document chatbot's loop: [chat_with_rag] *)

Module RagLoop.

Import Agent.
Import RagChat.

(** [json.dumps] of one character of a string, with [ensure_ascii]. *)
Definition json_char (c : ascii) : string :=
  let n := nat_of_ascii c in
  if (n =? 34)%nat then String backslash (String dquote EmptyString)
  else if (n =? 92)%nat then String backslash (String backslash EmptyString)
  else if (n =? 10)%nat then String backslash "n"
  else if (n =? 13)%nat then String backslash "r"
  else if (n =? 9)%nat then String backslash "t"
  else if (n =? 8)%nat then String backslash "b"
  else if (n =? 12)%nat then String backslash "f"
  else if ((32 <=? n) && (n <=? 126))%nat then String c EmptyString
  else String backslash ("u00" ++ hex2 c).

Fixpoint json_chars (s : string) : string :=
  match s with
  | EmptyString => EmptyString
  | String c s' => json_char c ++ json_chars s'
  end.

Definition json_str (s : string) : string :=
  String dquote (json_chars s ++ String dquote EmptyString).

(** [json.dumps(v)] *)
Fixpoint json_dumps (v : PyValue) : string :=
  match v with
  | PyNone => "null"
  | PyBool true => "true"
  | PyBool false => "false"
  | PyInt n => NilZero.string_of_int (Z.to_int n)
  | PyStr s => json_str s
  | PyList items => "[" ++ join ", " (map json_dumps items) ++ "]"
  | PyDict items =>
      "{" ++ join ", " (map (fun kv => json_str (fst kv) ++ ": " ++ json_dumps (snd kv)) items)
      ++ "}"
  end.

Definition newline : string := String (ascii_of_nat 10) EmptyString.

(** The [system] text of the first request. *)
Definition system_prompt : string :=
  newline ++
  "        You are a helpful assistant that can search the Pinecone index for relevant documents "
  ++ newline ++
  "        and read the full content of a document given its relative path." ++ newline ++
  "        Start with searching the pinecone index for relevant documents." ++ newline ++
  "        Then use the document to answer the user's to get a complete answer." ++ newline ++
  "        ".

(** [json.dumps(result) if isinstance(result, dict) else result] *)
Definition result_content (result : PyValue) : PyValue :=
  match result with
  | PyDict _ => PyStr (json_dumps result)
  | _ => result
  end.

(** The two messages that a round puts at the end of [messages_history]. *)
Definition round_entries (response : Response) (tool_use : ToolUse) (result : PyValue)
  : list Message :=
  [mkMessage "assistant" (Blocks (content response));
   mkMessage "user"
     (Dicts [[("type", PyStr "tool_result");
              ("tool_use_id", PyStr (id tool_use));
              ("content", result_content result)]])].

(** What a call does to the outside: the requests to the chat model, with
    their [system] text when they have one and their messages, and the calls
    of [process_tool_call]. *)
Inductive Event : Type :=
| Request (system : option string) (messages : list Message)
| ToolCall (tool_name : string) (tool_input : Dict).

Record State : Type := mkState {
  messages_history : list Message;
  log : list Event
}.

(** How a call of [chat_with_rag] ends: it returns [final_response], an
    exception leaves it, or it waits for a reply that does not come. *)
Inductive Outcome : Type :=
| Returned (final_response : option string) (st : State)
| Raised (e : Exn) (st : State)
| AwaitingModel (st : State).

Definition final_state (o : Outcome) : State :=
  match o with
  | Returned _ st => st
  | Raised _ st => st
  | AwaitingModel st => st
  end.

(** The [while response.stop_reason == "tool_use"] loop of [chat_with_rag]
    and the statements after it. *)
Fixpoint rag_loop (services : Services) (replies : list (Result Response))
    (response : Response) (st : State) : Outcome :=
  if String.eqb (stop_reason response) "tool_use" then
    match next_tool_use (content response) with
    | Raise e => Raised e st
    | Ok tool_use =>
        let st1 := mkState (messages_history st)
                     (log st ++ [ToolCall (name tool_use) (input tool_use)]) in
        match process_tool_call services (name tool_use) (input tool_use) with
        | Raise e => Raised e st1
        | Ok result =>
            let history := (messages_history st ++ round_entries response tool_use result)%list in
            let st2 := mkState history (log st1 ++ [Request None history]) in
            match replies with
            | [] => AwaitingModel st2
            | Raise e :: _ => Raised e st2
            | Ok response' :: replies' => rag_loop services replies' response' st2
            end
        end
    end
  else Returned (first_text (content response)) st.

(** [chat_with_rag(query, client_anthropic, index, client_openai)]: the
    first request is sent before [messages_history] exists. *)
Definition chat_with_rag (services : Services) (replies : list (Result Response))
    (query : string) : Outcome :=
  let first := [mkMessage "user" (Plain query)] in
  let st := mkState [] [Request (Some system_prompt) first] in
  match replies with
  | [] => AwaitingModel st
  | Raise e :: _ => Raised e st
  | Ok response :: replies' => rag_loop services replies' response (mkState first (log st))
  end.

(** One more request with the history, then the loop. *)
Definition proceed (services : Services) (replies : list (Result Response)) (st : State)
  : Outcome :=
  let st' := mkState (messages_history st) (log st ++ [Request None (messages_history st)]) in
  match replies with
  | [] => AwaitingModel st'
  | Raise e :: _ => Raised e st'
  | Ok response :: replies' => rag_loop services replies' response st'
  end.

(** A request after the first: no [system] text, and messages that begin
    with the query. *)
Definition later_event (query : string) (ev : Event) : Prop :=
  match ev with
  | Request system messages =>
      system = None /\ exists more, messages = mkMessage "user" (Plain query) :: more
  | ToolCall _ _ => True
  end.

End RagLoop.

(** ** The routing graph: [notebooks/agents/langchain.ipynb] *)

Module Graph.

Import Router.

(** [handle_cat_question(state)]; [cat_qa] gives the answer of the retrieval
    chain, whose result is the dict of the query and the answer. *)
Definition handle_cat_question (cat_qa : string -> string) (state : MessagesState)
  : Result (list GraphMessage) :=
  last <- last_message (messages state) ;;
  let question := content last in
  let result := PyDict [("query", PyStr question); ("result", PyStr (cat_qa question))] in
  Ok [mkGraphMessage (str result)].

(** [handle_general_question(state)]; [general_model] gives the text of the
    reply of the general model. *)
Definition handle_general_question (general_model : string -> string) (state : MessagesState)
  : Result (list GraphMessage) :=
  last <- last_message (messages state) ;;
  let question := content last in
  Ok [mkGraphMessage (general_model question)].

(** The graph as the notebook builds it: the nodes, and the conditional
    edges that lead from the start to a node by what [route_question]
    returns; every node leads to the end. *)
Record Workflow : Type := mkWorkflow {
  nodes : list (string * (MessagesState -> Result (list GraphMessage)));
  conditional_edges : list (string * string)
}.

Definition workflow (cat_qa general_model : string -> string) : Workflow :=
  {| nodes := [("cat_knowledge", handle_cat_question cat_qa);
               ("general_knowledge", handle_general_question general_model)];
     conditional_edges := [("cat_knowledge", "cat_knowledge");
                           ("general_knowledge", "general_knowledge")] |}.

(** A run of the compiled graph on a thread without earlier state: the
    router picks the edge, the node runs, its messages are added to the
    state, and the run ends. *)
Definition invoke (router_model : string -> string) (wf : Workflow) (state : MessagesState)
  : Result MessagesState :=
  route <- route_question router_model state ;;
  node <- Ingest.lookup (conditional_edges wf) route ;;
  handler <- Ingest.lookup (nodes wf) node ;;
  update <- handler state ;;
  Ok (mkMessagesState (messages state ++ update)).

End Graph.

(** ** More samples *)

Module Samples.

Import Text.

Definition fact_lines : list string :=
  ["Cats have five toes on each front paw."; EmptyString; "A cat has 12 whiskers."].

Definition three_passages : list string := ["toes"; "whiskers"; "paws"].

(** Embeddings stand-ins: one number for each vector. *)
Definition two_embeddings : list nat := [11; 22].
Definition three_embeddings : list nat := [11; 22; 33].

Definition chunked_files : list (string * list string) :=
  [("vision.md", ["first"; "second"]); ("api/prompt_caching.md", ["only"])].

Definition file_embeddings : list (string * list nat) :=
  [("vision.md", [11; 22]); ("api/prompt_caching.md", [33])].

Definition walked_files : list Ingest.FileEntry :=
  [Ingest.mkFileEntry "vision.md" "vision.md" (Ok "  Vision guide  ");
   Ingest.mkFileEntry "notes.txt" "notes.txt" (Ok "not a document");
   Ingest.mkFileEntry "locked.md" "api/locked.md" (Raise (ExternalError "Permission denied"));
   Ingest.mkFileEntry "tokens.md" "api/tokens.md" (Ok "Ends with <|endoftext|>");
   Ingest.mkFileEntry "batches.md" "api/batches.md" (Ok "Batches")].

(** A first call that asks for a search and returns. *)
Definition first_turn : Agent.Outcome :=
  Agent.chatbot_interaction Demo.facts_index
    [Ok Demo.toes_request; Ok Demo.toes_answer] Demo.toes_question None.

Definition read_request : Agent.Response :=
  {| Agent.stop_reason := "tool_use";
     Agent.content :=
       [Agent.ToolUseBlock
          {| Agent.id := "toolu_read";
             Agent.input := [("file_path", PyStr "missing.md")];
             Agent.name := "read_full_document" |}] |}.

End Samples.

(** * Properties *)

(** ** The conversation loop *)

Module AgentProps.

Import Agent.

Section Loop.

Variable index : CatFactsIndex.

(** *** Counting events *)

Lemma model_calls_app (evs evs' : list Event) :
  model_calls (evs ++ evs') = model_calls evs + model_calls evs'.
Proof. unfold model_calls. now rewrite filter_app, length_app. Qed.

Lemma tool_calls_app (evs evs' : list Event) :
  tool_calls (evs ++ evs') = tool_calls evs + tool_calls evs'.
Proof. unfold tool_calls. now rewrite filter_app, length_app. Qed.

Lemma tool_calls_snoc_model (evs : list Event) (m : list Message) :
  tool_calls (evs ++ [ModelCall m]) = tool_calls evs.
Proof. rewrite tool_calls_app. change (tool_calls [ModelCall m]) with 0. lia. Qed.

Lemma tool_calls_snoc_tool (evs : list Event) (n : string) (i : Dict) :
  tool_calls (evs ++ [ToolCall n i]) = S (tool_calls evs).
Proof. rewrite tool_calls_app. change (tool_calls [ToolCall n i]) with 1. lia. Qed.

Lemma model_calls_snoc_model (evs : list Event) (m : list Message) :
  model_calls (evs ++ [ModelCall m]) = S (model_calls evs).
Proof. rewrite model_calls_app. change (model_calls [ModelCall m]) with 1. lia. Qed.

Lemma model_calls_snoc_tool (evs : list Event) (n : string) (i : Dict) :
  model_calls (evs ++ [ToolCall n i]) = model_calls evs.
Proof. rewrite model_calls_app. change (model_calls [ToolCall n i]) with 0. lia. Qed.

Lemma log_record (ev : Event) (st : State) : log (record ev st) = (log st ++ [ev])%list.
Proof. reflexivity. Qed.

Lemma history_record (ev : Event) (st : State) : history (record ev st) = history st.
Proof. reflexivity. Qed.

Lemma history_say (r : string) (c : Content) (st : State) :
  history (say r c st) = (history st ++ [mkMessage r c])%list.
Proof. reflexivity. Qed.

Lemma history_after_round (st : State) (response : Response) (tu : ToolUse) (v : PyValue) :
  history (after_round st response tu v)
  = (history st ++ [assistant_message response; tool_result_message tu v])%list.
Proof.
  unfold after_round. rewrite !history_say, history_record, <- app_assoc. reflexivity.
Qed.

Lemma log_after_round (st : State) (response : Response) (tu : ToolUse) (v : PyValue) :
  log (after_round st response tu v) = (log st ++ [ToolCall (name tu) (input tu)])%list.
Proof. reflexivity. Qed.

(** *** The equations of the loop *)

Lemma tool_loop_eq (replies : list (Result Response)) (response : Response) (st : State) :
  tool_loop index replies response st =
  if requests_tool response then
    match next_tool_use (content response) with
    | Raise e => Raised e st
    | Ok tu =>
        match process_tool_call index (tool_calls (log st)) (name tu) (input tu) with
        | Raise e => Raised e (record (ToolCall (name tu) (input tu)) st)
        | Ok v => resume index replies (after_round st response tu v)
        end
    end
  else Returned (first_text (content response)) st.
Proof.
  unfold requests_tool, resume.
  destruct replies as [|[r|e] replies]; simpl;
    destruct (String.eqb (stop_reason response) "tool_use"); try reflexivity;
    destruct (next_tool_use (content response)) as [tu|e']; try reflexivity;
    destruct (process_tool_call index (tool_calls (log st)) (name tu) (input tu));
    reflexivity.
Qed.

Lemma chatbot_interaction_eq (replies : list (Result Response)) (user_message : string)
    (cm : option ConversationManager) :
  chatbot_interaction index replies user_message cm =
  resume index replies {| manager := {| conversation_history := prior cm ++ [user_entry user_message] |};
                          log := [] |}.
Proof. destruct cm; reflexivity. Qed.

Lemma tool_loop_final (replies : list (Result Response)) (response : Response) (st : State) :
  requests_tool response = false ->
  tool_loop index replies response st = Returned (first_text (content response)) st.
Proof. intros H. rewrite tool_loop_eq, H. reflexivity. Qed.

Lemma tool_loop_round (replies : list (Result Response)) (response : Response) (st : State)
    (tu : ToolUse) (v : PyValue) :
  requests_tool response = true ->
  next_tool_use (content response) = Ok tu ->
  process_tool_call index (tool_calls (log st)) (name tu) (input tu) = Ok v ->
  tool_loop index replies response st = resume index replies (after_round st response tu v).
Proof. intros H1 H2 H3. rewrite tool_loop_eq, H1, H2, H3. reflexivity. Qed.

(** *** Completed rounds *)

Lemma bind_ok {A B : Type} (r : Result A) (k : A -> Result B) (b : B) :
  bind r k = Ok b -> exists a, r = Ok a /\ k a = Ok b.
Proof. destruct r as [a|e]; simpl; intros H; [eauto | discriminate]. Qed.

Lemma tool_round_ok (n : nat) (response : Response) (round : list Message) :
  tool_round index n response = Ok round ->
  exists tu v,
    next_tool_use (content response) = Ok tu /\
    process_tool_call index n (name tu) (input tu) = Ok v /\
    round = [assistant_message response; tool_result_message tu v].
Proof.
  unfold tool_round. intros H.
  apply bind_ok in H as (tu & Htu & H).
  apply bind_ok in H as (v & Hv & H).
  exists tu, v. repeat split; congruence.
Qed.

Lemma transcript_length (requests : list Response) :
  forall n msgs,
    transcript index n requests = Ok msgs ->
    List.length msgs = 2 * List.length requests.
Proof.
  induction requests as [|r requests IH]; simpl; intros n msgs H.
  - now inversion H.
  - apply bind_ok in H as (round & Hround & H).
    apply bind_ok in H as (later & Hlater & H).
    apply tool_round_ok in Hround as (tu & v & _ & _ & ->).
    inversion H; subst. simpl. rewrite (IH _ _ Hlater). lia.
Qed.

(** Rounds that all complete are served one after the other: each costs one
    request to the model and one tool call, and adds its two messages. *)
Lemma resume_serviced (requests : list Response) :
  forall (st : State) (msgs : list Message) (rest : list (Result Response)),
    forallb requests_tool requests = true ->
    transcript index (tool_calls (log st)) requests = Ok msgs ->
    exists st',
      resume index (map Ok requests ++ rest) st = resume index rest st' /\
      history st' = (history st ++ msgs)%list /\
      model_calls (log st') = model_calls (log st) + List.length requests /\
      tool_calls (log st') = tool_calls (log st) + List.length requests.
Proof.
  induction requests as [|r requests IH]; intros st msgs rest Hall Htr.
  - inversion Htr; subst. exists st. simpl. rewrite app_nil_r. repeat split; lia.
  - simpl in Hall. apply andb_true_iff in Hall as [Hr Hall].
    simpl in Htr.
    apply bind_ok in Htr as (round & Hround & Htr).
    apply bind_ok in Htr as (later & Hlater & Htr).
    inversion Htr; subst msgs; clear Htr.
    apply tool_round_ok in Hround as (tu & v & Htu & Hv & ->).
    set (st1 := record (ModelCall (history st)) st).
    assert (Hcalls : tool_calls (log st1) = tool_calls (log st)).
    { apply tool_calls_snoc_model. }
    set (st2 := after_round st1 r tu v).
    assert (Hcalls2 : tool_calls (log st2) = S (tool_calls (log st))).
    { unfold st2. now rewrite log_after_round, tool_calls_snoc_tool, Hcalls. }
    destruct (IH st2 later rest Hall) as (st' & Heq & Hh & Hm & Ht).
    { now rewrite Hcalls2. }
    exists st'. split; [|split; [|split]].
    + rewrite <- Heq. simpl. unfold resume at 1. fold st1.
      apply tool_loop_round; [assumption | assumption | now rewrite Hcalls].
    + rewrite Hh. unfold st2. rewrite history_after_round. unfold st1.
      rewrite history_record, <- app_assoc. reflexivity.
    + rewrite Hm. unfold st2. rewrite log_after_round, model_calls_snoc_tool.
      unfold st1, record, log at 1. rewrite model_calls_snoc_model. simpl. lia.
    + rewrite Ht, Hcalls2. simpl. lia.
Qed.

(** The same from the call of [chatbot_interaction]: after the rounds of
    [requests] the function is about to send its next request. *)
Lemma chatbot_interaction_serviced (requests : list Response) (msgs : list Message)
    (rest : list (Result Response)) (user_message : string)
    (cm : option ConversationManager) :
  forallb requests_tool requests = true ->
  transcript index 0 requests = Ok msgs ->
  exists st',
    chatbot_interaction index (map Ok requests ++ rest) user_message cm
    = resume index rest st' /\
    history st' = (prior cm ++ user_entry user_message :: msgs)%list /\
    model_calls (log st') = List.length requests /\
    tool_calls (log st') = List.length requests.
Proof.
  intros Hall Htr. rewrite chatbot_interaction_eq.
  destruct (resume_serviced requests
              {| manager := {| conversation_history := prior cm ++ [user_entry user_message] |};
                 log := [] |} msgs rest Hall Htr) as (st' & Heq & Hh & Hm & Ht).
  exists st'. repeat split; try assumption.
  rewrite Hh. unfold history, get_messages. simpl. now rewrite <- app_assoc.
Qed.

(** *** What the request after the completed rounds leads to *)

Lemma resume_final (final : Response) (rest : list (Result Response)) (st : State) :
  requests_tool final = false ->
  resume index (Ok final :: rest) st
  = Returned (first_text (content final)) (record (ModelCall (history st)) st).
Proof. intros H. unfold resume. now apply tool_loop_final. Qed.

Lemma resume_tool_raises (r : Response) (rest : list (Result Response)) (st : State)
    (tu : ToolUse) (e : Exn) :
  requests_tool r = true ->
  next_tool_use (content r) = Ok tu ->
  process_tool_call index (tool_calls (log st)) (name tu) (input tu) = Raise e ->
  resume index (Ok r :: rest) st
  = Raised e (record (ToolCall (name tu) (input tu)) (record (ModelCall (history st)) st)).
Proof.
  intros H1 H2 H3. unfold resume. rewrite tool_loop_eq, H1, H2.
  unfold record at 1, log at 1. rewrite tool_calls_snoc_model, H3. reflexivity.
Qed.

Lemma resume_no_tool_use (r : Response) (rest : list (Result Response)) (st : State)
    (e : Exn) :
  requests_tool r = true ->
  next_tool_use (content r) = Raise e ->
  resume index (Ok r :: rest) st = Raised e (record (ModelCall (history st)) st).
Proof. intros H1 H2. unfold resume. now rewrite tool_loop_eq, H1, H2. Qed.

(** *** Finding blocks *)

Lemma tool_result_block_id (tool_use_id text : string) :
  getitem (tool_result_block tool_use_id text) "tool_use_id" = Ok (PyStr tool_use_id).
Proof. reflexivity. Qed.

Lemma next_tool_use_first (texts : list string) (tu : ToolUse) (others : list ContentBlock) :
  next_tool_use (map TextBlock texts ++ ToolUseBlock tu :: others) = Ok tu.
Proof. induction texts as [|t texts IH]; simpl; auto. Qed.

Lemma next_tool_use_none (blocks : list ContentBlock) :
  (forall b, In b blocks -> block_type b <> "tool_use") ->
  next_tool_use blocks = Raise StopIteration.
Proof.
  induction blocks as [|[t|tu] blocks IH]; simpl; intros H; auto.
  exfalso. apply (H (ToolUseBlock tu)); auto.
Qed.

Lemma first_text_some (blocks : list ContentBlock) (text : string) :
  first_text blocks = Some text <->
  exists tus later, blocks = (map ToolUseBlock tus ++ TextBlock text :: later)%list.
Proof.
  split.
  - induction blocks as [|[t|tu] blocks IH]; simpl; intros H.
    + discriminate.
    + inversion H; subst. now exists [], blocks.
    + destruct (IH H) as (tus & later & ->). now exists (tu :: tus), later.
  - intros (tus & later & ->). induction tus as [|tu tus IH]; simpl; auto.
Qed.

Lemma first_text_none (blocks : list ContentBlock) :
  first_text blocks = None <-> (forall b, In b blocks -> block_type b <> "text").
Proof.
  split.
  - induction blocks as [|[t|tu] blocks IH]; simpl; intros H b Hb.
    + contradiction.
    + discriminate.
    + destruct Hb as [<-|Hb]; [discriminate | now apply IH].
  - induction blocks as [|[t|tu] blocks IH]; simpl; intros H; auto.
    exfalso. apply (H (TextBlock t)); auto.
Qed.

(** *** What holds however the interaction ends *)

Lemma resume_exchange (replies : list (Result Response)) :
  forall st : State,
  exists added,
    history (final_state (resume index replies st)) = (history st ++ added)%list /\
    Exchange index (tool_calls (log st)) added.
Proof.
  induction replies as [|[r|e] replies IH]; intros st;
    try (exists []; split; [simpl; now rewrite app_nil_r | constructor]).
  unfold resume. rewrite tool_loop_eq.
  set (st1 := record (ModelCall (history st)) st).
  assert (Hcalls : tool_calls (log st1) = tool_calls (log st))
    by apply tool_calls_snoc_model.
  destruct (requests_tool r);
    [destruct (next_tool_use (content r)) as [tu|e] eqn:Htu;
     [destruct (process_tool_call index (tool_calls (log st1)) (name tu) (input tu))
        as [v|e] eqn:Hv |] |];
    try (exists []; split; [simpl; now rewrite app_nil_r | constructor]).
  destruct (IH (after_round st1 r tu v)) as (added & Hh & Hex).
  exists (assistant_message r :: tool_result_message tu v :: added). split.
  - rewrite Hh, history_after_round. unfold st1. rewrite history_record, <- app_assoc.
    reflexivity.
  - rewrite log_after_round, tool_calls_snoc_tool, Hcalls in Hex.
    rewrite Hcalls in Hv. now apply Exchange_round.
Qed.

Lemma sent_prefixes_request (st : State) :
  sent_prefixes st -> sent_prefixes (record (ModelCall (history st)) st).
Proof.
  intros H msgs Hin. simpl in Hin. apply in_app_or in Hin as [Hin|[Heq|[]]].
  - now apply H.
  - inversion Heq; subst. exists []. rewrite history_record. now rewrite app_nil_r.
Qed.

Lemma sent_prefixes_tool_call (st : State) (n : string) (i : Dict) :
  sent_prefixes st -> sent_prefixes (record (ToolCall n i) st).
Proof.
  intros H msgs Hin. simpl in Hin. apply in_app_or in Hin as [Hin|[Heq|[]]].
  - now apply H.
  - discriminate.
Qed.

Lemma sent_prefixes_round (st : State) (r : Response) (tu : ToolUse) (v : PyValue) :
  sent_prefixes st -> sent_prefixes (after_round st r tu v).
Proof.
  intros H msgs Hin. rewrite log_after_round in Hin.
  apply in_app_or in Hin as [Hin|[Heq|[]]]; [|discriminate].
  destruct (H msgs Hin) as (later & Hl). rewrite history_after_round, Hl, <- app_assoc.
  eauto.
Qed.

Lemma resume_sent (replies : list (Result Response)) :
  forall st : State,
    sent_prefixes st -> sent_prefixes (final_state (resume index replies st)).
Proof.
  induction replies as [|[r|e] replies IH]; intros st Hst;
    try (simpl; now apply sent_prefixes_request).
  unfold resume. rewrite tool_loop_eq.
  apply sent_prefixes_request in Hst.
  set (st1 := record (ModelCall (history st)) st) in *.
  destruct (requests_tool r);
    [destruct (next_tool_use (content r)) as [tu|e];
     [destruct (process_tool_call index (tool_calls (log st1)) (name tu) (input tu))
        as [v|e] |] |]; simpl; auto.
  - apply IH. now apply sent_prefixes_round.
  - now apply sent_prefixes_tool_call.
Qed.

(** A call that returns does so right after a request that carried the whole
    history. *)
Lemma resume_returned (replies : list (Result Response)) :
  forall (st : State) (final_response : option string) (st' : State),
    resume index replies st = Returned final_response st' ->
    exists evs, log st' = (evs ++ [ModelCall (history st')])%list.
Proof.
  induction replies as [|[r|e] replies IH]; intros st fr st' H; try discriminate.
  unfold resume in H. rewrite tool_loop_eq in H.
  set (st1 := record (ModelCall (history st)) st) in *.
  destruct (requests_tool r);
    [destruct (next_tool_use (content r)) as [tu|e];
     [destruct (process_tool_call index (tool_calls (log st1)) (name tu) (input tu))
        as [v|e] |] |]; try discriminate.
  - now apply IH in H.
  - inversion H; subst. exists (log st). reflexivity.
Qed.

(** *** The rounds of an interaction, however it ends *)

Lemma tool_events_snoc_model (evs : list Event) (m : list Message) :
  filter is_tool_call (evs ++ [ModelCall m]) = filter is_tool_call evs.
Proof. rewrite filter_app. cbn [filter is_tool_call]. apply app_nil_r. Qed.

Lemma tool_events_snoc_tool (evs : list Event) (n : string) (i : Dict) :
  filter is_tool_call (evs ++ [ToolCall n i]) = (filter is_tool_call evs ++ [ToolCall n i])%list.
Proof. rewrite filter_app. reflexivity. Qed.

(** Whatever the replies, an interaction is a run of completed rounds and
    then an ending: each completed round took one reply, made one tool call
    and one more request, and left its two messages. *)
Lemma resume_rounds (replies : list (Result Response)) :
  forall st : State,
  exists (served : list Served) (rest : list (Result Response)) (failed : list Event),
    replies = (map (fun s => Ok (served_response s)) served ++ rest)%list /\
    serves index (tool_calls (log st)) served /\
    history (final_state (resume index replies st))
    = (history st ++ flat_map served_messages served)%list /\
    model_calls (log (final_state (resume index replies st)))
    = S (model_calls (log st) + List.length served) /\
    filter is_tool_call (log (final_state (resume index replies st)))
    = (filter is_tool_call (log st) ++ map served_call served ++ failed)%list /\
    Ending index (tool_calls (log st) + List.length served) rest failed
      (resume index replies st).
Proof.
  induction replies as [|[r|e] replies IH]; intros st.
  - exists [], [], []. cbn [map flat_map app List.length resume final_state].
    rewrite history_record, log_record, model_calls_snoc_model, tool_events_snoc_model,
      !app_nil_r, !Nat.add_0_r.
    repeat split. constructor.
  - unfold resume. rewrite tool_loop_eq.
    set (st1 := record (ModelCall (history st)) st).
    assert (Hcalls : tool_calls (log st1) = tool_calls (log st))
      by apply tool_calls_snoc_model.
    assert (Hmodel : model_calls (log st1) = S (model_calls (log st)))
      by apply model_calls_snoc_model.
    assert (Hevents : filter is_tool_call (log st1) = filter is_tool_call (log st))
      by apply tool_events_snoc_model.
    assert (Hhist : history st1 = history st) by apply history_record.
    destruct (requests_tool r) eqn:Hr;
      [destruct (next_tool_use (content r)) as [tu|e] eqn:Htu;
       [destruct (process_tool_call index (tool_calls (log st1)) (name tu) (input tu))
          as [v|e] eqn:Hv |] |].
    + destruct (IH (after_round st1 r tu v))
        as (served & rest & failed & Hreplies & Hserves & Hh & Hm & Hev & Hend).
      rewrite log_after_round, tool_calls_snoc_tool, Hcalls in Hserves, Hend.
      rewrite history_after_round, Hhist in Hh.
      rewrite log_after_round, model_calls_snoc_tool, Hmodel in Hm.
      rewrite log_after_round, tool_events_snoc_tool, Hevents in Hev.
      rewrite Hcalls in Hv.
      exists (mkServed r tu v :: served), rest, failed.
      split; [now rewrite Hreplies|]. split; [cbn; auto|].
      split; [rewrite Hh, <- app_assoc; reflexivity|].
      split; [rewrite Hm; cbn [List.length]; lia|].
      split; [rewrite Hev, <- app_assoc; reflexivity|].
      cbn [List.length]. rewrite Nat.add_succ_r. exact Hend.
    + exists [], (Ok r :: replies), [ToolCall (name tu) (input tu)].
      cbn [map flat_map app List.length final_state].
      rewrite history_record, log_record, model_calls_snoc_tool, tool_events_snoc_tool,
        Hhist, Hmodel, Hevents, !app_nil_r, !Nat.add_0_r.
      rewrite Hcalls in Hv.
      repeat split. now constructor.
    + exists [], (Ok r :: replies), [].
      cbn [map flat_map app List.length final_state].
      rewrite Hhist, Hmodel, Hevents, !app_nil_r, !Nat.add_0_r.
      repeat split. now constructor.
    + exists [], (Ok r :: replies), [].
      cbn [map flat_map app List.length final_state].
      rewrite Hhist, Hmodel, Hevents, !app_nil_r, !Nat.add_0_r.
      repeat split. now constructor.
  - exists [], (Raise e :: replies), []. cbn [map flat_map app List.length resume final_state].
    rewrite history_record, log_record, model_calls_snoc_model, tool_events_snoc_model,
      !app_nil_r, !Nat.add_0_r.
    repeat split. constructor.
Qed.

Lemma chatbot_interaction_rounds (replies : list (Result Response)) (user_message : string)
    (cm : option ConversationManager) :
  exists (served : list Served) (rest : list (Result Response)) (failed : list Event),
    replies = (map (fun s => Ok (served_response s)) served ++ rest)%list /\
    serves index 0 served /\
    history (final_state (chatbot_interaction index replies user_message cm))
    = (prior cm ++ mkMessage "user" (Plain user_message)
         :: flat_map served_messages served)%list /\
    model_calls (log (final_state (chatbot_interaction index replies user_message cm)))
    = S (List.length served) /\
    filter is_tool_call (log (final_state (chatbot_interaction index replies user_message cm)))
    = (map served_call served ++ failed)%list /\
    Ending index (List.length served) rest failed
      (chatbot_interaction index replies user_message cm).
Proof.
  rewrite chatbot_interaction_eq.
  destruct (resume_rounds replies
              {| manager := {| conversation_history := prior cm ++ [user_entry user_message] |};
                 log := [] |})
    as (served & rest & failed & Hreplies & Hserves & Hh & Hm & Hev & Hend).
  exists served, rest, failed. repeat split; try assumption.
  rewrite Hh. unfold history, get_messages. cbn [manager conversation_history].
  now rewrite <- app_assoc.
Qed.

(** *** The claims about the loop *)

(** C1, as amended: an exception raised in a tool round is not caught. When
    the rounds of [requests] have completed and the call of
    [process_tool_call] for the next request raises [e], [e] leaves
    [chatbot_interaction]; the manager keeps the user's message and the
    messages of the completed rounds, nothing is appended for the failed
    round, and no further request is sent to the model. *)
Theorem tool_exception_propagates (requests : list Response) (msgs : list Message)
    (r : Response) (tu : ToolUse) (e : Exn) (rest : list (Result Response))
    (user_message : string) (cm : option ConversationManager) :
  forallb requests_tool requests = true ->
  transcript index 0 requests = Ok msgs ->
  requests_tool r = true ->
  next_tool_use (content r) = Ok tu ->
  process_tool_call index (List.length requests) (name tu) (input tu) = Raise e ->
  exists st,
    chatbot_interaction index (map Ok requests ++ Ok r :: rest) user_message cm
    = Raised e st /\
    history st = (prior cm ++ user_entry user_message :: msgs)%list /\
    model_calls (log st) = S (List.length requests) /\
    tool_calls (log st) = S (List.length requests).
Proof.
  intros Hall Htr Hr Htu He.
  destruct (chatbot_interaction_serviced requests msgs (Ok r :: rest) user_message cm Hall Htr)
    as (st' & Heq & Hh & Hm & Ht).
  rewrite Heq, (resume_tool_raises r rest st' tu e Hr Htu) by now rewrite Ht.
  eexists. split; [reflexivity|].
  rewrite !history_record, !log_record.
  rewrite model_calls_snoc_tool, model_calls_snoc_model.
  rewrite tool_calls_snoc_tool, tool_calls_snoc_model.
  repeat split; auto.
Qed.

(** C3, as amended: when the model asks for a tool [N] times and then
    answers with another stop reason, and every one of the [N] tool rounds
    completes (its response holds a [tool_use] block and [process_tool_call]
    returns for it), [chatbot_interaction] returns after exactly [N + 1]
    requests to the model and [N] tool calls, with a history longer by
    [1 + 2 * N] entries; its answer is the first text of the last response. *)
Theorem completed_rounds_counts (requests : list Response) (msgs : list Message)
    (final : Response) (rest : list (Result Response))
    (user_message : string) (cm : option ConversationManager) :
  forallb requests_tool requests = true ->
  transcript index 0 requests = Ok msgs ->
  requests_tool final = false ->
  exists st,
    chatbot_interaction index (map Ok requests ++ Ok final :: rest) user_message cm
    = Returned (first_text (content final)) st /\
    model_calls (log st) = List.length requests + 1 /\
    tool_calls (log st) = List.length requests /\
    List.length (history st) = List.length (prior cm) + 1 + 2 * List.length requests.
Proof.
  intros Hall Htr Hfinal.
  destruct (chatbot_interaction_serviced requests msgs (Ok final :: rest) user_message cm Hall Htr)
    as (st' & Heq & Hh & Hm & Ht).
  rewrite Heq, resume_final by assumption.
  eexists. split; [reflexivity|].
  rewrite history_record, log_record.
  rewrite model_calls_snoc_model, tool_calls_snoc_model, Hh.
  rewrite length_app. simpl. rewrite (transcript_length _ _ _ Htr).
  repeat split; lia.
Qed.

(** C4: when the response that ends the loop has a stop reason other than
    ["tool_use"], the call returns, and its answer is the text of the first
    text block of that response, or [None] when the response has no text
    block. *)
Theorem final_answer_is_first_text (requests : list Response) (msgs : list Message)
    (final : Response) (rest : list (Result Response))
    (user_message : string) (cm : option ConversationManager) :
  forallb requests_tool requests = true ->
  transcript index 0 requests = Ok msgs ->
  stop_reason final <> "tool_use" ->
  exists answer st,
    chatbot_interaction index (map Ok requests ++ Ok final :: rest) user_message cm
    = Returned answer st /\
    (forall text,
        answer = Some text <->
        exists tus later,
          content final = (map ToolUseBlock tus ++ TextBlock text :: later)%list) /\
    (answer = None <-> forall b, In b (content final) -> block_type b <> "text").
Proof.
  intros Hall Htr Hfinal.
  assert (Hf : requests_tool final = false) by now apply String.eqb_neq.
  destruct (chatbot_interaction_serviced requests msgs (Ok final :: rest) user_message cm Hall Htr)
    as (st' & Heq & _).
  rewrite Heq, resume_final by assumption.
  do 2 eexists. split; [reflexivity|]. split.
  - intros text. apply first_text_some.
  - apply first_text_none.
Qed.

(** C5: however the call ends, what it added to the history after the user's
    message is, round after round, the assistant message of a response and a
    user message with one [tool_result] dict, in which ["tool_use_id"] is the
    [id] of the [tool_use] block that was served: the first one of that
    response, whose name and input were passed to [process_tool_call]. The
    calls of [process_tool_call] are those of these rounds, in order; a last
    call that raised has no tool result. *)
Theorem tool_result_echoes_tool_use_id (replies : list (Result Response))
    (user_message : string) (cm : option ConversationManager) :
  let outcome := chatbot_interaction index replies user_message cm in
  exists (served : list Served) (failed : list Event),
    serves index 0 served /\
    history (final_state outcome)
    = (prior cm
       ++ mkMessage "user" (Plain user_message)
          :: flat_map
               (fun s =>
                  [mkMessage "assistant" (Blocks (content (served_response s)));
                   mkMessage "user"
                     (Dicts [[("type", PyStr "tool_result");
                              ("tool_use_id", PyStr (id (served_tool_use s)));
                              ("content", PyStr (str (served_result s)))]])])
               served)%list /\
    filter is_tool_call (log (final_state outcome))
    = (map (fun s => ToolCall (name (served_tool_use s)) (input (served_tool_use s))) served
       ++ failed)%list /\
    (failed = [] \/
     exists e tool_name tool_input,
       failed = [ToolCall tool_name tool_input] /\
       process_tool_call index (List.length served) tool_name tool_input = Raise e /\
       outcome = Raised e (final_state outcome)).
Proof.
  intros outcome. subst outcome.
  destruct (chatbot_interaction_rounds replies user_message cm)
    as (served & rest & failed & _ & Hserves & Hh & _ & Hev & Hend).
  exists served, failed.
  split; [exact Hserves|]. split; [exact Hh|]. split; [exact Hev|].
  inversion Hend; subst; auto.
  right. exists e, (name tu), (input tu). repeat split. assumption.
Qed.

(** C6, as amended: a tool round serves the first [tool_use] block of the
    response and no other: one call of [process_tool_call], for that block.
    When the call returns, the round appends two messages, the assistant
    message with the whole content of the response and then a user message
    with a single [tool_result] dict holding the id of the block and [str] of
    the result, and goes on to the next request to the model. When the call
    raises, the round appends nothing and the exception leaves the loop. *)
Theorem round_serves_first_tool_use (replies : list (Result Response)) (response : Response)
    (st : State) (texts : list string) (tu : ToolUse) (others : list ContentBlock) :
  stop_reason response = "tool_use" ->
  content response = (map TextBlock texts ++ ToolUseBlock tu :: others)%list ->
  (forall v,
      process_tool_call index (tool_calls (log st)) (name tu) (input tu) = Ok v ->
      exists st',
        tool_loop index replies response st = resume index replies st' /\
        history st'
        = (history st
           ++ [mkMessage "assistant" (Blocks (content response));
               mkMessage "user"
                 (Dicts [[("type", PyStr "tool_result");
                          ("tool_use_id", PyStr (id tu));
                          ("content", PyStr (str v))]])])%list /\
        log st' = (log st ++ [ToolCall (name tu) (input tu)])%list) /\
  (forall e,
      process_tool_call index (tool_calls (log st)) (name tu) (input tu) = Raise e ->
      exists st',
        tool_loop index replies response st = Raised e st' /\
        history st' = history st /\
        log st' = (log st ++ [ToolCall (name tu) (input tu)])%list).
Proof.
  intros Hstop Hcontent.
  assert (Hr : requests_tool response = true) by now apply String.eqb_eq.
  assert (Htu : next_tool_use (content response) = Ok tu)
    by (rewrite Hcontent; apply next_tool_use_first).
  split.
  - intros v Hv. exists (after_round st response tu v). split; [|split].
    + now apply tool_loop_round.
    + apply history_after_round.
    + apply log_after_round.
  - intros e He. exists (record (ToolCall (name tu) (input tu)) st). split; [|split].
    + now rewrite tool_loop_eq, Hr, Htu, He.
    + apply history_record.
    + apply log_record.
Qed.

(** C7: the history only grows at its end. However the call ends, the
    manager holds what it held before, in place, then the user's message,
    then the two messages of every completed tool round in the order of the
    replies; there is one request to the model for the user's message and one
    after each of these rounds, and each carried a beginning of that final
    history. A call that returns has completed the round of every response
    that asked for a tool, and returns right after a request that carried
    the whole history; the response that ends the loop is returned, not
    appended. *)
Theorem history_is_append_only (replies : list (Result Response))
    (user_message : string) (cm : option ConversationManager) :
  let outcome := chatbot_interaction index replies user_message cm in
  exists (served : list Served) (rest : list (Result Response)),
    replies = (map (fun s => Ok (served_response s)) served ++ rest)%list /\
    serves index 0 served /\
    history (final_state outcome)
    = (prior cm
       ++ mkMessage "user" (Plain user_message)
          :: flat_map
               (fun s =>
                  [mkMessage "assistant" (Blocks (content (served_response s)));
                   mkMessage "user"
                     (Dicts [[("type", PyStr "tool_result");
                              ("tool_use_id", PyStr (id (served_tool_use s)));
                              ("content", PyStr (str (served_result s)))]])])
               served)%list /\
    model_calls (log (final_state outcome)) = S (List.length served) /\
    (forall msgs,
        In (ModelCall msgs) (log (final_state outcome)) ->
        exists later, history (final_state outcome) = (msgs ++ later)%list) /\
    (forall final_response st,
        outcome = Returned final_response st ->
        (exists final rest',
            rest = Ok final :: rest' /\ stop_reason final <> "tool_use") /\
        tool_calls (log st) = List.length served /\
        exists evs, log st = (evs ++ [ModelCall (history st)])%list).
Proof.
  intros outcome. subst outcome.
  destruct (chatbot_interaction_rounds replies user_message cm)
    as (served & rest & failed & Hreplies & Hserves & Hh & Hm & Hev & Hend).
  exists served, rest.
  split; [exact Hreplies|]. split; [exact Hserves|]. split; [exact Hh|].
  split; [exact Hm|]. split.
  - rewrite chatbot_interaction_eq. apply resume_sent. intros msgs [].
  - intros fr st Hret. split; [|split].
    + rewrite Hret in Hend. inversion Hend; subst.
      exists final, rest0. split; [reflexivity | now apply String.eqb_neq].
    + rewrite Hret in Hend, Hev. cbn [final_state] in Hev. inversion Hend; subst.
      unfold tool_calls. rewrite Hev, app_nil_r. apply length_map.
    + rewrite chatbot_interaction_eq in Hret. now apply resume_returned in Hret.
Qed.

(** C9: a response that stops for ["tool_use"] and holds no [tool_use]
    block makes [chatbot_interaction] raise [StopIteration]: the call neither
    returns nor goes on, and the history keeps what the completed rounds
    added. *)
Theorem missing_tool_use_block_raises (requests : list Response) (msgs : list Message)
    (bad : Response) (rest : list (Result Response))
    (user_message : string) (cm : option ConversationManager) :
  forallb requests_tool requests = true ->
  transcript index 0 requests = Ok msgs ->
  stop_reason bad = "tool_use" ->
  (forall b, In b (content bad) -> block_type b <> "tool_use") ->
  exists st,
    chatbot_interaction index (map Ok requests ++ Ok bad :: rest) user_message cm
    = Raised StopIteration st /\
    history st = (prior cm ++ user_entry user_message :: msgs)%list.
Proof.
  intros Hall Htr Hstop Hnone.
  destruct (chatbot_interaction_serviced requests msgs (Ok bad :: rest) user_message cm Hall Htr)
    as (st' & Heq & Hh & _).
  rewrite Heq, (resume_no_tool_use bad rest st' StopIteration).
  - eexists. split; [reflexivity|]. now rewrite history_record.
  - now apply String.eqb_eq.
  - now apply next_tool_use_none.
Qed.

End Loop.

(** *** The loop on the sample exchanges *)

Import Demo.

(** C1 fails as stated: the index raises while [search_cat_facts] runs, and
    the exception leaves [chatbot_interaction]. No tool result is appended
    and the answer that the model would have given next is never asked
    for. *)
Lemma executor_exception_escapes :
  chatbot_interaction failing_index [Ok toes_request; Ok toes_answer] toes_question None
  = Raised (ExternalError "Connection error.")
      {| manager := {| conversation_history := [user_entry toes_question] |};
         log := [ModelCall [user_entry toes_question];
                 ToolCall "search_cat_facts" [("query", PyStr "How many toes does a cat have?")]] |}.
Proof. reflexivity. Qed.

Lemma tool_exception_propagates_witness :
  exists st,
    chatbot_interaction failing_index
      (map Ok [booking_request] ++ Ok toes_request :: [Ok toes_answer]) "Book it" (Some earlier)
    = Raised (ExternalError "Connection error.") st /\
    history st
    = (prior (Some earlier)
       ++ user_entry "Book it"
          :: [assistant_message booking_request;
              tool_result_message
                {| id := "toolu_01HjYb3mfs7jGM3J7ebuBVPc";
                   input := [("day", PyStr "Thursday"); ("time", PyStr "12:00-14:00")];
                   name := "book_appointment" |}
                (book_appointment (PyStr "Thursday") (PyStr "12:00-14:00"))])%list /\
    model_calls (log st) = 2 /\
    tool_calls (log st) = 2.
Proof.
  apply (tool_exception_propagates failing_index [booking_request] _ toes_request
           {| id := "toolu_01L6M882cTYKpQg8uiRRgovG";
              input := [("query", PyStr "How many toes does a cat have?")];
              name := "search_cat_facts" |});
    reflexivity.
Defined.

(** The dispatcher of the assistant on a name it does not know. *)
Lemma process_tool_call_unknown (index : CatFactsIndex) (n : nat) (tool_name : string)
    (tool_input : Dict) :
  tool_name <> "search_cat_facts" ->
  tool_name <> "check_vet_availability" ->
  tool_name <> "book_appointment" ->
  process_tool_call index n tool_name tool_input = Ok PyNone.
Proof.
  intros H1 H2 H3. unfold process_tool_call.
  apply String.eqb_neq in H1, H2, H3. now rewrite H1, H2, H3.
Qed.

(** C2, the code at the failing input: for the unknown tool ["add"] the
    dispatcher of the assistant returns [None], and the model is sent the
    text ["None"] as tool result; the dispatcher of the document chatbot
    answers the same name with an error text. *)
Theorem unknown_tool_yields_None :
  chatbot_interaction facts_index [Ok add_request; Ok add_answer] "What is 2 + 3?" None
  = Returned (Some "The sum is 5.")
      {| manager :=
           {| conversation_history :=
                [user_entry "What is 2 + 3?";
                 assistant_message add_request;
                 mkMessage "user" (Dicts [tool_result_block "toolu_add" "None"])] |};
         log :=
           [ModelCall [user_entry "What is 2 + 3?"];
            ToolCall "add" [("a", PyInt 2); ("b", PyInt 3)];
            ModelCall [user_entry "What is 2 + 3?";
                       assistant_message add_request;
                       mkMessage "user" (Dicts [tool_result_block "toolu_add" "None"])]] |}
  /\ process_tool_call facts_index 0 "add" [("a", PyInt 2); ("b", PyInt 3)] = Ok PyNone
  /\ RagChat.process_tool_call no_services "add" [("a", PyInt 2); ("b", PyInt 3)]
     = Ok (PyStr "Unknown tool: add").
Proof. repeat split. Qed.

(** C3 fails as stated: the model asks for a tool once and would then
    answer, but the input of the request lacks ["time"]; the [KeyError]
    leaves the call after one request to the model instead of two, and the
    history has grown by one entry instead of three. *)
Lemma missing_input_cuts_the_run_short :
  let outcome :=
    chatbot_interaction facts_index [Ok incomplete_booking; Ok booking_answer]
      "Book Thursday" None in
  outcome = Raised (KeyError "time") (final_state outcome) /\
  model_calls (log (final_state outcome)) = 1 /\
  tool_calls (log (final_state outcome)) = 1 /\
  List.length (history (final_state outcome)) = 1.
Proof. repeat split. Qed.

Lemma completed_rounds_counts_witness :
  exists st,
    chatbot_interaction facts_index
      (map Ok [toes_request; booking_request] ++ Ok booking_answer :: []) toes_question
      (Some earlier)
    = Returned (first_text (content booking_answer)) st /\
    model_calls (log st) = 2 + 1 /\
    tool_calls (log st) = 2 /\
    List.length (history st) = 1 + 1 + 2 * 2.
Proof.
  eapply (completed_rounds_counts facts_index [toes_request; booking_request]);
    reflexivity.
Defined.

Lemma final_answer_is_first_text_witness :
  exists answer st,
    chatbot_interaction facts_index
      (map Ok [toes_request] ++ Ok silent_answer :: []) toes_question None
    = Returned answer st /\
    (forall text,
        answer = Some text <->
        exists tus later,
          content silent_answer = (map ToolUseBlock tus ++ TextBlock text :: later)%list) /\
    (answer = None <-> forall b, In b (content silent_answer) -> block_type b <> "text").
Proof.
  eapply (final_answer_is_first_text facts_index [toes_request]);
    [reflexivity | reflexivity | discriminate].
Defined.

(** C6 fails as stated: the response asks for a search and for the calendar,
    the search is the block served, and the index raises. The round appends
    no message, the second block is not served, and the exception leaves the
    call. *)
Lemma failed_round_appends_nothing :
  chatbot_interaction failing_index [Ok search_then_check; Ok toes_answer] toes_question
    (Some earlier)
  = Raised (ExternalError "Connection error.")
      {| manager :=
           {| conversation_history :=
                [mkMessage "user" (Plain "Hello"); mkMessage "user" (Plain toes_question)] |};
         log :=
           [ModelCall [mkMessage "user" (Plain "Hello"); mkMessage "user" (Plain toes_question)];
            ToolCall "search_cat_facts" [("query", PyStr "toes")]] |}.
Proof. reflexivity. Qed.

Lemma round_serves_first_tool_use_witness :
  exists st',
    tool_loop facts_index [Ok booking_answer] double_request (mkState earlier [])
    = resume facts_index [Ok booking_answer] st' /\
    history st'
    = [mkMessage "user" (Plain "Hello");
       mkMessage "assistant" (Blocks (content double_request));
       mkMessage "user"
         (Dicts [[("type", PyStr "tool_result");
                  ("tool_use_id", PyStr "toolu_a");
                  ("content", PyStr (str check_vet_availability))]])] /\
    log st' = [ToolCall "check_vet_availability" []].
Proof.
  destruct (round_serves_first_tool_use facts_index [Ok booking_answer] double_request
              (mkState earlier []) ["Checking the calendar, then booking."]
              {| id := "toolu_a"; input := []; name := "check_vet_availability" |}
              [ToolUseBlock {| id := "toolu_b";
                               input := [("day", PyStr "Monday"); ("time", PyStr "10:00-12:00")];
                               name := "book_appointment" |}]
              eq_refl eq_refl) as [Hreturns _].
  exact (Hreturns check_vet_availability eq_refl).
Defined.

Lemma missing_tool_use_block_raises_witness :
  exists st,
    chatbot_interaction facts_index
      (map Ok [toes_request] ++ Ok empty_request :: [Ok toes_answer]) toes_question None
    = Raised StopIteration st /\
    history st
    = (prior None
       ++ user_entry toes_question
          :: [assistant_message toes_request;
              tool_result_message
                {| id := "toolu_01L6M882cTYKpQg8uiRRgovG";
                   input := [("query", PyStr "How many toes does a cat have?")];
                   name := "search_cat_facts" |}
                (PyList [PyStr "Cats have five toes on each front paw, but only four toes on each back paw."])])%list.
Proof.
  apply (missing_tool_use_block_raises facts_index [toes_request] _ empty_request);
    try reflexivity.
  intros b [<-|[]]. discriminate.
Defined.

End AgentProps.

(** ** The router *)

Module RouterProps.

Import Router.

Lemma last_message_ok (msgs : list GraphMessage) (d : GraphMessage) :
  msgs <> [] -> last_message msgs = Ok (List.last msgs d).
Proof.
  induction msgs as [|m msgs IH]; intros H; [contradiction|].
  destruct msgs as [|m' msgs]; [reflexivity|].
  change (last_message (m' :: msgs) = Ok (List.last (m' :: msgs) d)).
  apply IH. discriminate.
Qed.






(** *** Lower case, character by character *)







(** Without a message the router fails on [messages[-1]]. *)
Lemma route_question_empty (router_model : string -> string) :
  route_question router_model (mkMessagesState []) = Raise IndexError.
Proof. reflexivity. Qed.

End RouterProps.

(** ** The token chunker *)

Module VectorStoreProps.

Import VectorStore.

Open Scope Z_scope.

(** *** Slices with bounds inside the naturals *)

Lemma slice_nat {A : Type} (l : list A) (a b : nat) :
  slice l (Z.of_nat a) (Z.of_nat a + Z.of_nat b) = firstn b (skipn a l).
Proof.
  unfold slice, clamp.
  destruct (Z.ltb_spec (Z.of_nat a) 0) as [Hneg|_]; [lia|].
  destruct (Z.ltb_spec (Z.of_nat a + Z.of_nat b) 0) as [Hneg|_]; [lia|].
  destruct (Nat.le_gt_cases a (List.length l)) as [Hle|Hgt].
  - rewrite (Z.min_l (Z.of_nat a)) by lia. rewrite Nat2Z.id.
    destruct (Nat.le_gt_cases b (List.length l - a)) as [Hb|Hb].
    + rewrite Z.min_l by lia. f_equal. lia.
    + rewrite Z.min_r by lia.
      rewrite !firstn_all2; [reflexivity | |]; rewrite length_skipn; lia.
  - rewrite !Z.min_r by lia. rewrite Z.sub_diag. simpl.
    rewrite skipn_all2 by lia. now rewrite firstn_nil.
Qed.

Lemma slice_from_nat {A : Type} (l : list A) (a : nat) (len : Z) :
  0 <= len ->
  slice l (Z.of_nat a) (Z.of_nat a + len) = firstn (Z.to_nat len) (skipn a l).
Proof.
  intros Hlen. rewrite <- (Z2Nat.id len) at 1 by exact Hlen. apply slice_nat.
Qed.

(** *** How many chunks *)

Lemma lt_chunk_count (n k : nat) (step : Z) :
  0 < step ->
  (Z.of_nat k * step < Z.of_nat n <-> (k < chunk_count n step)%nat).
Proof.
  intros Hstep. unfold chunk_count.
  set (q := (Z.of_nat n + step - 1) / step).
  assert (Hq : 0 <= q) by (apply Z.div_pos; lia).
  assert (Hmul : step * q <= Z.of_nat n + step - 1) by (apply Z.mul_div_le; lia).
  split; intros H.
  - assert (Z.of_nat k + 1 <= q) by (apply Z.div_le_lower_bound; nia). lia.
  - assert (Z.of_nat k + 1 <= q) by lia. nia.
Qed.

Lemma chunk_count_le (n : nat) (step : Z) : 0 < step -> (chunk_count n step <= n)%nat.
Proof.
  intros Hstep. destruct (Nat.le_gt_cases (chunk_count n step) n) as [H|H]; [exact H|].
  apply lt_chunk_count in H; [nia | exact Hstep].
Qed.

Section Chunks.

Variable encoding : Encoding.
Variable token_ids : list Z.
Variables chunk_size overlap : Z.

(** *** The loop when the stride is positive *)

Lemma chunk_loop_windows (fuel : nat) :
  0 < chunk_size - overlap ->
  forall (k : nat) (chunks : list string),
    (chunk_count (List.length token_ids) (chunk_size - overlap) - k < fuel)%nat ->
    chunk_loop fuel encoding token_ids chunk_size overlap
      (Z.of_nat k * (chunk_size - overlap)) chunks
    = Some (chunks
            ++ map (fun j => decode encoding (window token_ids chunk_size overlap j))
                 (seq k (chunk_count (List.length token_ids) (chunk_size - overlap) - k)))%list.
Proof.
  intros Hstep. induction fuel as [|fuel IH]; intros k chunks Hfuel; [lia|].
  simpl.
  set (count := chunk_count (List.length token_ids) (chunk_size - overlap)) in *.
  destruct (Z.ltb_spec (Z.of_nat k * (chunk_size - overlap))
              (Z.of_nat (List.length token_ids))) as [Hlt|Hge].
  - apply lt_chunk_count in Hlt; [|exact Hstep]. fold count in Hlt.
    replace (Z.of_nat k * (chunk_size - overlap) + (chunk_size - overlap))
      with (Z.of_nat (S k) * (chunk_size - overlap)) by lia.
    rewrite IH by lia.
    replace (count - k)%nat with (S (count - S k)) by lia.
    simpl. rewrite <- app_assoc. reflexivity.
  - assert (Hk : ~ (k < count)%nat).
    { intros Hk. apply lt_chunk_count in Hk; [lia | exact Hstep]. }
    replace (count - k)%nat with 0%nat by lia. simpl. now rewrite app_nil_r.
Qed.

(** *** The loop when the stride is not positive *)

Lemma chunk_loop_runs_on (fuel : nat) :
  chunk_size <= overlap ->
  token_ids <> [] ->
  forall (start : Z) (chunks : list string),
    start <= 0 ->
    chunk_loop fuel encoding token_ids chunk_size overlap start chunks = None.
Proof.
  intros Hstep Hne. induction fuel as [|fuel IH]; intros start chunks Hstart; [reflexivity|].
  simpl. destruct (Z.ltb_spec start (Z.of_nat (List.length token_ids))) as [_|Hge].
  - apply IH. lia.
  - destruct token_ids; [contradiction | simpl in Hge; lia].
Qed.

(** *** The windows *)

Hypothesis Hoverlap : 0 <= overlap < chunk_size.

Lemma window_nat (k : nat) :
  window token_ids chunk_size overlap k
  = firstn (Z.to_nat chunk_size) (skipn (k * Z.to_nat (chunk_size - overlap)) token_ids).
Proof.
  unfold window.
  replace (Z.of_nat k * (chunk_size - overlap))
    with (Z.of_nat (k * Z.to_nat (chunk_size - overlap))) by lia.
  apply slice_from_nat. lia.
Qed.

Lemma window_length (k : nat) :
  Z.of_nat (List.length (window token_ids chunk_size overlap k))
  = Z.max 0 (Z.min chunk_size
               (Z.of_nat (List.length token_ids) - Z.of_nat k * (chunk_size - overlap))).
Proof.
  rewrite window_nat, length_firstn, length_skipn. lia.
Qed.

Lemma window_shared (k : nat) :
  skipn (Z.to_nat (chunk_size - overlap)) (window token_ids chunk_size overlap k)
  = firstn (Z.to_nat overlap) (window token_ids chunk_size overlap (S k)).
Proof.
  rewrite !window_nat, skipn_firstn_comm, skipn_skipn, firstn_firstn.
  replace (Z.to_nat (chunk_size - overlap) + k * Z.to_nat (chunk_size - overlap))%nat
    with (S k * Z.to_nat (chunk_size - overlap))%nat by lia.
  f_equal; lia.
Qed.

End Chunks.

(** What the chunker does before its loop: an exception of
    [encoding_for_model] or of [encode] leaves it, whatever the sizes. *)
Lemma chunker_unknown_model (fuel : nat) (tiktoken : Tiktoken) (text : string)
    (chunk_size overlap : Z) (model_name : string) (e : Exn) :
  encoding_for_model tiktoken model_name = Raise e ->
  chunk_text_by_tokens fuel tiktoken text chunk_size overlap model_name = Some (Raise e).
Proof. intros H. unfold chunk_text_by_tokens. now rewrite H. Qed.

Lemma chunker_refused_text (fuel : nat) (tiktoken : Tiktoken) (encoding : Encoding)
    (text : string) (chunk_size overlap : Z) (model_name : string) (e : Exn) :
  encoding_for_model tiktoken model_name = Ok encoding ->
  encode encoding text = Raise e ->
  chunk_text_by_tokens fuel tiktoken text chunk_size overlap model_name = Some (Raise e).
Proof. intros H1 H2. unfold chunk_text_by_tokens. now rewrite H1, H2. Qed.

Lemma chunker_encoded_text (fuel : nat) (tiktoken : Tiktoken) (encoding : Encoding)
    (text : string) (token_ids : list Z) (chunk_size overlap : Z) (model_name : string) :
  encoding_for_model tiktoken model_name = Ok encoding ->
  encode encoding text = Ok token_ids ->
  chunk_text_by_tokens fuel tiktoken text chunk_size overlap model_name
  = match chunk_loop fuel encoding token_ids chunk_size overlap 0 [] with
    | None => None
    | Some chunks => Some (Ok chunks)
    end.
Proof. intros H1 H2. unfold chunk_text_by_tokens. now rewrite H1, H2. Qed.

(** The chunks of an encoded text when the stride is positive. *)
Lemma chunker_windows (fuel : nat) (tiktoken : Tiktoken) (encoding : Encoding)
    (text : string) (token_ids : list Z) (chunk_size overlap : Z) (model_name : string) :
  0 < chunk_size - overlap ->
  encoding_for_model tiktoken model_name = Ok encoding ->
  encode encoding text = Ok token_ids ->
  (List.length token_ids < fuel)%nat ->
  chunk_text_by_tokens fuel tiktoken text chunk_size overlap model_name
  = Some (Ok (map (fun k => decode encoding (window token_ids chunk_size overlap k))
                (seq 0 (chunk_count (List.length token_ids) (chunk_size - overlap))))).
Proof.
  intros Hstep Hmodel Hencode Hfuel.
  rewrite (chunker_encoded_text _ _ _ _ _ _ _ _ Hmodel Hencode).
  pose proof (chunk_count_le (List.length token_ids) _ Hstep) as Hle.
  pose proof (chunk_loop_windows encoding token_ids chunk_size overlap fuel Hstep 0 []) as H.
  cbn [Z.of_nat Z.mul app] in H. rewrite Nat.sub_0_r in H.
  rewrite H by lia. reflexivity.
Qed.

(** Without a positive stride the loop never leaves a text that has a
    token: whatever the fuel, it is still running. *)
Lemma chunker_runs_on_without_stride (fuel : nat) (tiktoken : Tiktoken)
    (encoding : Encoding) (text : string) (token_ids : list Z)
    (chunk_size overlap : Z) (model_name : string) :
  chunk_size <= overlap ->
  encoding_for_model tiktoken model_name = Ok encoding ->
  encode encoding text = Ok token_ids ->
  token_ids <> [] ->
  chunk_text_by_tokens fuel tiktoken text chunk_size overlap model_name = None.
Proof.
  intros Hstep Hmodel Hencode Hne.
  rewrite (chunker_encoded_text _ _ _ _ _ _ _ _ Hmodel Hencode).
  rewrite chunk_loop_runs_on; [reflexivity | exact Hstep | exact Hne | lia].
Qed.

(** C8, as amended: for [0 <= overlap < chunk_size] the chunker returns, for
    every text that the tokenizer encodes, the decoded token windows that
    start every [chunk_size - overlap] tokens: as many as the number of
    tokens divided by that stride, rounded up. Every chunk has at least one
    and at most [chunk_size] tokens. The tokens of a chunk after its first
    [chunk_size - overlap] are the first [overlap] tokens of the next chunk,
    or all of it when the next chunk is shorter: the two share [overlap]
    tokens, or as many as are left in the text from the start of the next
    chunk, if that is less. A text that [encode] refuses, or a model that
    [encoding_for_model] does not know, gives no chunks: the exception
    leaves the chunker. *)
Theorem chunks_are_strided_windows (fuel : nat) (tiktoken : Tiktoken) (text : string)
    (chunk_size overlap : Z) (model_name : string) :
  0 <= overlap < chunk_size ->
  (forall e,
      encoding_for_model tiktoken model_name = Raise e ->
      chunk_text_by_tokens fuel tiktoken text chunk_size overlap model_name
      = Some (Raise e)) /\
  (forall encoding e,
      encoding_for_model tiktoken model_name = Ok encoding ->
      encode encoding text = Raise e ->
      chunk_text_by_tokens fuel tiktoken text chunk_size overlap model_name
      = Some (Raise e)) /\
  (forall encoding token_ids,
      encoding_for_model tiktoken model_name = Ok encoding ->
      encode encoding text = Ok token_ids ->
      (List.length token_ids < fuel)%nat ->
      let step := chunk_size - overlap in
      let count := chunk_count (List.length token_ids) step in
      chunk_text_by_tokens fuel tiktoken text chunk_size overlap model_name
      = Some (Ok (map (fun k => decode encoding (window token_ids chunk_size overlap k))
                    (seq 0 count))) /\
      (forall k, (k < count)%nat ->
         1 <= Z.of_nat (List.length (window token_ids chunk_size overlap k)) <= chunk_size) /\
      (forall k, (S k < count)%nat ->
         skipn (Z.to_nat step) (window token_ids chunk_size overlap k)
         = firstn (Z.to_nat overlap) (window token_ids chunk_size overlap (S k)) /\
         Z.of_nat (List.length (skipn (Z.to_nat step) (window token_ids chunk_size overlap k)))
         = Z.min overlap (Z.of_nat (List.length token_ids) - Z.of_nat (S k) * step))).
Proof.
  intros Hov.
  assert (Hstep : 0 < chunk_size - overlap) by lia.
  split; [|split].
  - intros e. apply chunker_unknown_model.
  - intros encoding e. apply chunker_refused_text.
  - intros encoding token_ids Hmodel Hencode Hfuel. cbv zeta. split; [|split].
    + now apply chunker_windows.
    + intros k Hk. apply lt_chunk_count in Hk; [|exact Hstep].
      rewrite window_length by exact Hov. lia.
    + intros k Hk. apply lt_chunk_count in Hk; [|exact Hstep].
      rewrite (window_shared token_ids chunk_size overlap Hov k). split; [reflexivity|].
      rewrite length_firstn, Nat2Z.inj_min, window_length by exact Hov. lia.
Qed.

(** C8 fails as stated: seven tokens cut with [chunk_size = 5] and
    [overlap = 2] give three chunks, and the last one, a single token, shares
    one token with the chunk before it, not two. With the sizes that
    [load_passages] passes it is the same: of 850 tokens the third chunk
    keeps 50, fewer than the overlap of 100. And a text that names a special
    token is not split at all: the [ValueError] of [encode] leaves the
    chunker. *)
Lemma last_chunk_shares_fewer_tokens :
  chunk_text_by_tokens 8 char_tiktoken "abcdefg" 5 2 "gpt-3.5-turbo"
  = Some (Ok ["abcde"; "defg"; "g"]%string) /\
  encode char_encoding "abcdefg" = Ok [97; 98; 99; 100; 101; 102; 103] /\
  window [97; 98; 99; 100; 101; 102; 103] 5 2 1 = [100; 101; 102; 103] /\
  window [97; 98; 99; 100; 101; 102; 103] 5 2 2 = [103] /\
  skipn 3 (window [97; 98; 99; 100; 101; 102; 103] 5 2 1) = [103] /\
  List.length (window (repeat 0 850) 500 100 1) = 450%nat /\
  List.length (window (repeat 0 850) 500 100 2) = 50%nat /\
  chunk_text_by_tokens 8 char_tiktoken "a <|endoftext|> b" 5 2 "gpt-3.5-turbo"
  = Some (Raise (ValueError "Encountered text corresponding to disallowed special token '<|endoftext|>'.")).
Proof. repeat split; vm_compute; reflexivity. Qed.

Lemma chunks_are_strided_windows_witness :
  chunk_text_by_tokens 10 char_tiktoken "abcdefghi" 5 2 "gpt-3.5-turbo"
  = Some (Ok ["abcde"; "defgh"; "ghi"]%string) /\
  (forall k, (k < 3)%nat ->
     1 <= Z.of_nat (List.length (window [97; 98; 99; 100; 101; 102; 103; 104; 105] 5 2 k)) <= 5) /\
  (forall fuel,
     chunk_text_by_tokens fuel char_tiktoken "a <|endoftext|> b" 5 2 "gpt-3.5-turbo"
     = Some (Raise (ValueError "Encountered text corresponding to disallowed special token '<|endoftext|>'."))) /\
  (forall fuel,
     chunk_text_by_tokens fuel char_tiktoken "abcdefghi" 5 2 "gpt-4o"
     = Some (Raise (KeyError "gpt-4o"))).
Proof.
  assert (Hov : 0 <= 2 < 5) by lia.
  destruct (chunks_are_strided_windows 10 char_tiktoken "abcdefghi" 5 2 "gpt-3.5-turbo" Hov)
    as (_ & _ & Hsplit).
  destruct (Hsplit char_encoding [97; 98; 99; 100; 101; 102; 103; 104; 105]
              eq_refl eq_refl) as (Hchunks & Hsize & _); [simpl; lia|].
  split; [exact Hchunks|]. split; [exact Hsize|]. split; intros fuel.
  - destruct (chunks_are_strided_windows fuel char_tiktoken "a <|endoftext|> b" 5 2
                "gpt-3.5-turbo" Hov) as (_ & Hrefused & _).
    apply (Hrefused char_encoding); reflexivity.
  - destruct (chunks_are_strided_windows fuel char_tiktoken "abcdefghi" 5 2 "gpt-4o" Hov)
      as (Hunknown & _).
    apply Hunknown. reflexivity.
Defined.

End VectorStoreProps.

(** ** Text files and the cat facts store *)

Module TextProps.

Import Text.

(** *** Characters of a text *)

Lemma has_char_app (c : ascii) (a b : string) :
  has_char c (a ++ b) = has_char c a || has_char c b.
Proof. induction a as [|x a IH]; simpl; [reflexivity|]. now rewrite IH, orb_assoc. Qed.

Lemma has_char_lstrip (c : ascii) (s : string) :
  has_char c s = false -> has_char c (lstrip s) = false.
Proof.
  induction s as [|x s IH]; simpl; intros H; [reflexivity|].
  apply orb_false_iff in H as [Hx Hs].
  destruct (isspace x); [now apply IH | simpl; now rewrite Hx, Hs].
Qed.

Lemma has_char_rstrip (c : ascii) (s : string) :
  has_char c s = false -> has_char c (rstrip s) = false.
Proof.
  induction s as [|x s IH]; simpl; intros H; [reflexivity|].
  apply orb_false_iff in H as [Hx Hs]. specialize (IH Hs).
  destruct (rstrip s) as [|y r].
  - destruct (isspace x); simpl; [reflexivity | now rewrite Hx].
  - simpl in *. now rewrite Hx, IH.
Qed.

Lemma has_char_strip (c : ascii) (s : string) :
  has_char c s = false -> has_char c (strip s) = false.
Proof. intros H. unfold strip. now apply has_char_rstrip, has_char_lstrip. Qed.

(** *** Stripping *)

Lemma rstrip_idempotent (s : string) : rstrip (rstrip s) = rstrip s.
Proof.
  induction s as [|c s IH]; simpl; [reflexivity|].
  destruct (rstrip s) as [|y r] eqn:Hr.
  - destruct (isspace c) eqn:Hc; simpl; [reflexivity | now rewrite Hc].
  - change (rstrip (String c (String y r))) with
      (match rstrip (String y r) with
       | EmptyString => if isspace c then EmptyString else String c EmptyString
       | r' => String c r'
       end).
    now rewrite IH.
Qed.

Lemma lstrip_fixed (s : string) :
  match s with
  | EmptyString => True
  | String c _ => isspace c = false
  end -> lstrip s = s.
Proof. destruct s as [|c s]; simpl; intros H; [reflexivity | now rewrite H]. Qed.

Lemma lstrip_head (s : string) :
  match lstrip s with
  | EmptyString => True
  | String c _ => isspace c = false
  end.
Proof.
  induction s as [|c s IH]; simpl; [exact I|].
  destruct (isspace c) eqn:Hc; [exact IH | exact Hc].
Qed.

Lemma rstrip_head (s : string) :
  match s with
  | EmptyString => True
  | String c _ => isspace c = false
  end ->
  match rstrip s with
  | EmptyString => True
  | String c _ => isspace c = false
  end.
Proof.
  destruct s as [|c s]; simpl; intros H; [exact I|].
  destruct (rstrip s); [now rewrite H | exact H].
Qed.

Lemma strip_idempotent (s : string) : strip (strip s) = strip s.
Proof.
  unfold strip.
  rewrite (lstrip_fixed (rstrip (lstrip s))) by apply rstrip_head, lstrip_head.
  apply rstrip_idempotent.
Qed.

Lemma rstrip_space_end (s : string) (c : ascii) :
  isspace c = true -> rstrip (s ++ String c EmptyString) = rstrip s.
Proof.
  intros Hc. induction s as [|x s IH]; simpl; [now rewrite Hc | now rewrite IH].
Qed.

Lemma lstrip_app (s t : string) :
  lstrip (s ++ t) = match lstrip s with EmptyString => lstrip t | r => r ++ t end.
Proof.
  induction s as [|x s IH]; simpl; [now destruct (lstrip t)|].
  destruct (isspace x); [exact IH | reflexivity].
Qed.

Lemma strip_space_end (s : string) (c : ascii) :
  isspace c = true -> strip (s ++ String c EmptyString) = strip s.
Proof.
  intros Hc. unfold strip. rewrite lstrip_app.
  destruct (lstrip s) as [|y r] eqn:Hl.
  - simpl. now rewrite Hc.
  - change (String y r ++ String c EmptyString) with (String y r ++ String c EmptyString).
    now apply rstrip_space_end.
Qed.

(** *** Lines *)

Lemma LF_is_space : isspace LF = true.
Proof. reflexivity. Qed.

Lemma lines_bodies (t : string) :
  Forall (fun l => exists body,
              has_char LF body = false /\
              (l = body \/ l = body ++ String LF EmptyString)) (lines t).
Proof.
  induction t as [|c t IH]; simpl; [constructor|].
  destruct (Ascii.eqb c LF) eqn:Hc.
  - constructor; [|exact IH]. exists EmptyString. split; [reflexivity | now right].
  - assert (Hc' : has_char LF (String c EmptyString) = false).
    { cbn [has_char]. rewrite Ascii.eqb_sym, Hc. reflexivity. }
    destruct (lines t) as [|l ls].
    + constructor; [|constructor]. exists (String c EmptyString). split; [exact Hc' | now left].
    + inversion IH as [|? ? (body & Hb & Hl) Hls]; subst. constructor; [|exact Hls].
      exists (String c body). split.
      * cbn [has_char] in *. apply orb_false_iff in Hc' as [-> _]. exact Hb.
      * destruct Hl as [->| ->]; [now left | now right].
Qed.

Lemma lines_chars (c : ascii) (t : string) :
  has_char c t = false -> Forall (fun l => has_char c l = false) (lines t).
Proof.
  induction t as [|x t IH]; cbn [has_char lines]; intros H; [constructor|].
  apply orb_false_iff in H as [Hx Ht]. specialize (IH Ht).
  destruct (Ascii.eqb x LF) eqn:Hlf.
  - constructor; [|exact IH]. apply Ascii.eqb_eq in Hlf. subst x.
    cbn [has_char]. now rewrite Hx.
  - destruct (lines t) as [|l ls].
    + constructor; [|constructor]. cbn [has_char]. now rewrite Hx.
    + inversion IH; subst. constructor; [|assumption]. cbn [has_char]. rewrite Hx. assumption.
Qed.

Lemma lines_line (f rest : string) :
  has_char LF f = false ->
  lines (f ++ String LF rest) = (f ++ String LF EmptyString) :: lines rest.
Proof.
  induction f as [|c f IH]; cbn [has_char lines append]; intros H.
  - now rewrite Ascii.eqb_refl.
  - apply orb_false_iff in H as [Hc Hf]. rewrite Ascii.eqb_sym, Hc, (IH Hf). reflexivity.
Qed.

(** *** Newline translation *)

Lemma translate_no_CR_two (s : string) :
  has_char CR (translate_newlines s) = false /\
  forall c, has_char CR (translate_newlines (String c s)) = false.
Proof.
  induction s as [|x s [IH1 IH2]].
  - split; [reflexivity|]. intros c. cbn [translate_newlines].
    destruct (Ascii.eqb c CR) eqn:Hc; [reflexivity|].
    cbn [has_char]. now rewrite Ascii.eqb_sym, Hc.
  - split; [apply IH2|]. intros c.
    change (translate_newlines (String c (String x s))) with
      (if Ascii.eqb c CR
       then String LF (if Ascii.eqb x LF then translate_newlines s
                       else translate_newlines (String x s))
       else String c (translate_newlines (String x s))).
    destruct (Ascii.eqb c CR) eqn:Hc.
    + cbn [has_char]. change (Ascii.eqb CR LF) with false. cbn [orb].
      destruct (Ascii.eqb x LF); [exact IH1 | apply IH2].
    + cbn [has_char]. rewrite Ascii.eqb_sym, Hc. apply IH2.
Qed.

Lemma translate_no_CR (s : string) : has_char CR (translate_newlines s) = false.
Proof. apply translate_no_CR_two. Qed.

Lemma translate_clean (f rest : string) :
  has_char CR f = false ->
  translate_newlines (f ++ rest) = f ++ translate_newlines rest.
Proof.
  induction f as [|c f IH]; cbn [has_char translate_newlines append]; intros H;
    [reflexivity|].
  apply orb_false_iff in H as [Hc Hf]. rewrite Ascii.eqb_sym in Hc.
  now rewrite Hc, (IH Hf).
Qed.

End TextProps.

Module CatFactsProps.

Import Text CatFacts TextProps.

(** *** Loading the facts *)

Lemma translate_LF (rest : string) :
  translate_newlines (String LF rest) = String LF (translate_newlines rest).
Proof. reflexivity. Qed.

Lemma translate_CRLF (rest : string) :
  translate_newlines (String CR (String LF rest)) = String LF (translate_newlines rest).
Proof. reflexivity. Qed.

Lemma translate_file (eol : string) (facts : list string) :
  eol = String LF EmptyString \/ eol = String CR (String LF EmptyString) ->
  Forall (fun f => has_char CR f = false) facts ->
  translate_newlines (file_of_lines eol facts) = file_of_lines (String LF EmptyString) facts.
Proof.
  intros Heol Hfacts. induction Hfacts as [|f facts Hf _ IH]; [reflexivity|].
  cbn [file_of_lines]. rewrite translate_clean by exact Hf. f_equal.
  destruct Heol as [-> | ->].
  - change (String LF EmptyString ++ ?r) with (String LF r).
    now rewrite translate_LF, IH.
  - change (String CR (String LF EmptyString) ++ ?r) with (String CR (String LF r)).
    now rewrite translate_CRLF, IH.
Qed.

(** X1: a file with one fact per line, every line ended by a line feed or by
    a carriage return and a line feed, loads as exactly these facts, empty
    lines included, when no fact has white space at its ends or a line break
    inside. *)
Theorem load_passages_of_lines (eol : string) (facts : list string) :
  eol = String LF EmptyString \/ eol = String CR (String LF EmptyString) ->
  Forall (fun f => strip f = f /\ has_char LF f = false /\ has_char CR f = false) facts ->
  load_passages (file_of_lines eol facts) = facts.
Proof.
  intros Heol Hfacts. unfold load_passages, readlines.
  rewrite (translate_file eol facts Heol)
    by (eapply Forall_impl; [|exact Hfacts]; now intros f (_ & _ & H)).
  induction Hfacts as [|f facts (Hs & Hlf & _) _ IH]; [reflexivity|].
  cbn [file_of_lines append]. change (String LF EmptyString ++ ?r) with (String LF r).
  rewrite lines_line by exact Hlf. cbn [map].
  rewrite strip_space_end by apply LF_is_space. now rewrite Hs, IH.
Qed.

(** X2: whatever the file holds, no passage has white space at its ends or
    a line break inside. *)
Theorem passages_are_stripped (text : string) :
  Forall (fun p => strip p = p /\ has_char LF p = false /\ has_char CR p = false)
    (load_passages text).
Proof.
  unfold load_passages, readlines.
  pose proof (lines_bodies (translate_newlines text)) as Hb.
  pose proof (lines_chars CR (translate_newlines text) (translate_no_CR text)) as Hc.
  induction Hb as [|l ls (body & Hlf & Hl) _ IH]; [constructor|].
  inversion Hc as [|? ? Hcr Hcs]; subst. constructor; [|now apply IH].
  assert (Hstrip : strip l = strip body).
  { destruct Hl as [-> | ->]; [reflexivity | now apply strip_space_end]. }
  assert (Hbody : has_char CR body = false).
  { destruct Hl as [-> | ->]; [exact Hcr|].
    rewrite has_char_app in Hcr. now apply orb_false_iff in Hcr. }
  rewrite Hstrip. split; [apply strip_idempotent|].
  split; now apply has_char_strip.
Qed.

(** *** The text of an index *)

Lemma to_int_nonnil (z : Z) :
  Z.to_int z <> Decimal.Pos Decimal.Nil /\ Z.to_int z <> Decimal.Neg Decimal.Nil.
Proof.
  destruct z as [|p|p]; simpl; split; try discriminate;
    intros H; inversion H as [Hp]; now apply DecimalPos.Unsigned.to_uint_nonnil in Hp.
Qed.

Lemma str_index_injective (i j : nat) : str_index i = str_index j -> i = j.
Proof.
  unfold str_index. cbn [str repr]. intros H.
  apply (f_equal NilZero.int_of_string) in H.
  rewrite !NilZero.isi in H by apply to_int_nonnil.
  inversion H as [Hz]. apply (f_equal Z.of_int) in Hz.
  rewrite !DecimalZ.of_to in Hz. now apply Nat2Z.inj.
Qed.

Lemma NoDup_map_injective {A B : Type} (f : A -> B) (l : list A) :
  (forall x y, f x = f y -> x = y) -> NoDup l -> NoDup (map f l).
Proof.
  intros Hf Hl. induction Hl as [|x l Hx _ IH]; simpl; constructor; [|exact IH].
  intros Hin. apply in_map_iff in Hin as (y & Hy & Hin). apply Hf in Hy. now subst.
Qed.

(** *** Building the vectors *)

Lemma item_skipn {A : Type} (data : list A) (i : nat) (x : A) :
  nth_error data i = Some x -> skipn i data = x :: skipn (S i) data.
Proof.
  revert i. induction data as [|y data IH]; intros [|i] H; try discriminate.
  - now inversion H.
  - simpl in H. now apply IH.
Qed.

Lemma vectors_from_spec {E : Type} (data : list string) (embeddings : list E) :
  forall i,
    vectors_from data i embeddings =
    if (List.length embeddings <=? List.length data - i)%nat
    then Ok (map entry
               (combine (combine (seq i (List.length embeddings)) (skipn i data)) embeddings))
    else Raise IndexError.
Proof.
  induction embeddings as [|e embeddings IH]; intros i; [reflexivity|].
  cbn [vectors_from List.length]. unfold item.
  destruct (nth_error data i) as [x|] eqn:Hx.
  - assert (Hi : i < List.length data) by (apply nth_error_Some; congruence).
    cbn [bind]. rewrite IH, (item_skipn data i x Hx).
    destruct (Nat.leb_spec (List.length embeddings) (List.length data - S i));
      destruct (Nat.leb_spec (S (List.length embeddings)) (List.length data - i));
      try lia; reflexivity.
  - apply nth_error_None in Hx.
    destruct (Nat.leb_spec (S (List.length embeddings)) (List.length data - i));
      [lia | reflexivity].
Qed.

(** X3: [vectors] pairs the embeddings with the passages in order, the
    [k]-th vector having the id [str(k)]; passages beyond the last embedding
    are left out without a word, and an embedding beyond the last passage
    makes the comprehension raise [IndexError]. *)
Theorem vectors_pair_in_order {E : Type} (data : list string) (embeddings : list E) :
  vectors data embeddings =
  if (List.length embeddings <=? List.length data)%nat
  then Ok (map entry (combine (combine (seq 0 (List.length embeddings)) data) embeddings))
  else Raise IndexError.
Proof.
  unfold vectors. rewrite vectors_from_spec, Nat.sub_0_r. reflexivity.
Qed.

Lemma vectors_from_ids {E : Type} (data : list string) (embeddings : list E) :
  forall i vs,
    vectors_from data i embeddings = Ok vs ->
    map id vs = map str_index (seq i (List.length embeddings)) /\
    Forall (fun v => exists k, id v = str_index k /\ nth_error data k = Some (metadata_text v))
      vs.
Proof.
  induction embeddings as [|e embeddings IH]; intros i vs H.
  - inversion H; subst. split; [reflexivity | constructor].
  - cbn [vectors_from] in H.
    apply AgentProps.bind_ok in H as (x & Hx & H).
    apply AgentProps.bind_ok in H as (later & Hlater & H).
    inversion H; subst vs; clear H.
    destruct (IH _ _ Hlater) as [Hids Hall]. split.
    + cbn [map List.length seq]. cbn [id]. now rewrite Hids.
    + constructor; [|exact Hall]. exists i. split; [reflexivity|].
      unfold item in Hx. cbn [metadata_text].
      destruct (nth_error data i); [now inversion Hx | discriminate].
Qed.

(** X4: the ids of the vectors are pairwise distinct, and the vector with
    the id [str(k)] carries the [k]-th passage. *)
Theorem vector_ids_are_distinct {E : Type} (data : list string) (embeddings : list E)
    (vs : list (Vector E)) :
  vectors data embeddings = Ok vs ->
  NoDup (map id vs) /\
  Forall (fun v => exists k, id v = str_index k /\ nth_error data k = Some (metadata_text v))
    vs.
Proof.
  intros H. apply vectors_from_ids in H as [Hids Hall]. split; [|exact Hall].
  rewrite Hids. apply NoDup_map_injective; [apply str_index_injective | apply seq_NoDup].
Qed.

(** *** The batch loop of the Weaviate notebook *)

Lemma add_objects_from_spec {E : Type} (embeddings : list E) (data : list string) :
  forall i,
    add_objects_from embeddings i data =
    (combine data (skipn i embeddings),
     if (List.length data <=? List.length embeddings - i)%nat then None else Some IndexError).
Proof.
  induction data as [|fact data IH]; intros i; [reflexivity|].
  cbn [add_objects_from List.length]. unfold item.
  destruct (nth_error embeddings i) as [x|] eqn:Hx.
  - assert (Hi : i < List.length embeddings) by (apply nth_error_Some; congruence).
    rewrite IH, (item_skipn embeddings i x Hx). cbn [combine].
    destruct (Nat.leb_spec (List.length data) (List.length embeddings - S i));
      destruct (Nat.leb_spec (S (List.length data)) (List.length embeddings - i));
      try lia; reflexivity.
  - apply nth_error_None in Hx. rewrite skipn_all2 by exact Hx. cbn [combine].
    destruct (Nat.leb_spec (S (List.length data)) (List.length embeddings - i));
      [lia | reflexivity].
Qed.

(** X5: the batch loop adds the facts with their vectors in order as long
    as there is an embedding for the fact; it ends normally when there are
    at least as many embeddings as facts (more are ignored) and with
    [IndexError] at the first fact without one. *)
Theorem add_objects_pair_in_order {E : Type} (data : list string) (embeddings : list E) :
  add_objects data embeddings =
  (combine data embeddings,
   if (List.length data <=? List.length embeddings)%nat then None else Some IndexError).
Proof.
  unfold add_objects. rewrite add_objects_from_spec, Nat.sub_0_r. reflexivity.
Qed.

Lemma entries_pairs {E : Type} (embeddings : list E) :
  forall (i : nat) (data : list string),
    map (fun v => (metadata_text v, values v))
      (map entry (combine (combine (seq i (List.length embeddings)) data) embeddings))
    = combine data embeddings.
Proof.
  induction embeddings as [|e embeddings IH]; intros i data.
  - cbn. now rewrite combine_nil.
  - destruct data as [|x data]; [reflexivity|].
    cbn [List.length seq combine map]. now rewrite IH.
Qed.

(** X6: with one embedding for every passage both notebooks store the same
    pairs of text and vector, in the same order, and neither fails. *)
Theorem stores_hold_the_same_pairs {E : Type} (data : list string) (embeddings : list E) :
  List.length embeddings = List.length data ->
  exists vs,
    vectors data embeddings = Ok vs /\
    add_objects data embeddings = (map (fun v => (metadata_text v, values v)) vs, None).
Proof.
  intros Hlen. unfold vectors, add_objects.
  rewrite vectors_from_spec, add_objects_from_spec, !Nat.sub_0_r, Hlen, Nat.leb_refl.
  eexists. split; [reflexivity|]. now rewrite <- Hlen, entries_pairs.
Qed.

(** *** On the samples *)

Lemma load_passages_of_lines_witness :
  load_passages (file_of_lines (String CR (String LF EmptyString)) Samples.fact_lines)
  = Samples.fact_lines.
Proof.
  apply (load_passages_of_lines (String CR (String LF EmptyString)) Samples.fact_lines).
  - now right.
  - repeat constructor.
Defined.

Lemma vector_ids_are_distinct_witness :
  NoDup (map id [mkVector "0" 11 "toes"; mkVector "1" 22 "whiskers"]) /\
  Forall (fun v => exists k,
              id v = str_index k /\
              nth_error Samples.three_passages k = Some (metadata_text v))
    [mkVector "0" 11 "toes"; mkVector "1" 22 "whiskers"].
Proof.
  apply (vector_ids_are_distinct Samples.three_passages Samples.two_embeddings).
  reflexivity.
Defined.

Lemma stores_hold_the_same_pairs_witness :
  exists vs,
    vectors Samples.three_passages Samples.three_embeddings = Ok vs /\
    add_objects Samples.three_passages Samples.three_embeddings
    = (map (fun v => (metadata_text v, values v)) vs, None).
Proof.
  apply (stores_hold_the_same_pairs Samples.three_passages Samples.three_embeddings).
  reflexivity.
Defined.

End CatFactsProps.

(** ** Filling the document store *)

Module IngestProps.

Import Text VectorStore Ingest TextProps.

(** *** The ids of the vectors *)

Lemma digits_no_underscore (d : Decimal.uint) :
  has_char underscore (NilEmpty.string_of_uint d) = false.
Proof. induction d; simpl; auto. Qed.

Lemma str_index_no_underscore (i : nat) : has_char underscore (str_index i) = false.
Proof.
  unfold str_index. cbn [str repr].
  destruct (Z.of_nat i) as [|p|p] eqn:Hz; [reflexivity | | lia].
  cbn [Z.to_int NilZero.string_of_int]. unfold NilZero.string_of_uint.
  destruct (Pos.to_uint p); try apply digits_no_underscore. reflexivity.
Qed.

Lemma split_at_last_underscore (a b x y : string) :
  has_char underscore x = false ->
  has_char underscore y = false ->
  a ++ String underscore x = b ++ String underscore y ->
  a = b /\ x = y.
Proof.
  intros Hx Hy. revert b. induction a as [|c a IH]; intros [|c' b] H.
  - now inversion H.
  - inversion H as [[Hc Hxy]]. subst x.
    rewrite has_char_app in Hx. cbn [has_char] in Hx.
    rewrite Ascii.eqb_refl, orb_true_r in Hx. discriminate.
  - inversion H as [[Hc Hxy]]. subst y.
    rewrite has_char_app in Hy. cbn [has_char] in Hy.
    rewrite Ascii.eqb_refl, orb_true_r in Hy. discriminate.
  - inversion H as [[Hc Hxy]]. destruct (IH _ Hxy) as [-> ->]. now split.
Qed.

Lemma vector_id_injective (p q : string) (i j : nat) :
  vector_id p i = vector_id q j -> p = q /\ i = j.
Proof.
  unfold vector_id. intros H.
  apply split_at_last_underscore in H as [Hp Hi];
    try apply str_index_no_underscore.
  split; [exact Hp | now apply CatFactsProps.str_index_injective].
Qed.

Lemma file_vectors_ids {E : Type} (data : list (string * list string)) (p : string)
    (embeddings : list E) :
  forall i vs,
    file_vectors_from data p i embeddings = Ok vs ->
    map id vs = map (vector_id p) (seq i (List.length embeddings)).
Proof.
  induction embeddings as [|e embeddings IH]; intros i vs H.
  - now inversion H.
  - cbn [file_vectors_from] in H.
    apply AgentProps.bind_ok in H as (chunks & _ & H).
    apply AgentProps.bind_ok in H as (chunk & _ & H).
    apply AgentProps.bind_ok in H as (later & Hlater & H).
    inversion H; subst vs. cbn [map List.length seq id]. now rewrite (IH _ _ Hlater).
Qed.

Lemma prepare_vectors_ids {E : Type} (data : list (string * list string))
    (embedding_dict : list (string * list E)) :
  forall vs,
    prepare_vectors data embedding_dict = Ok vs ->
    Forall (fun v => exists q j, In q (map fst embedding_dict) /\ id v = vector_id q j) vs.
Proof.
  induction embedding_dict as [|[p embs] rest IH]; intros vs H.
  - inversion H. constructor.
  - cbn [prepare_vectors] in H.
    apply AgentProps.bind_ok in H as (fv & Hfv & H).
    apply AgentProps.bind_ok in H as (later & Hlater & H).
    inversion H; subst vs. apply Forall_app. split.
    + apply file_vectors_ids in Hfv. apply Forall_forall. intros v Hv.
      apply (in_map id) in Hv. rewrite Hfv in Hv.
      apply in_map_iff in Hv as (j & Hj & _). exists p, j. split; [now left | now symmetry].
    + eapply Forall_impl; [|apply (IH _ Hlater)].
      intros v (q & j & Hq & Hid). exists q, j. split; [now right | exact Hid].
Qed.

(** X7: the ids [f"{file_path}_{i}"] of the prepared vectors are pairwise
    distinct, as the comment in the notebook says, whatever the file paths
    are. *)
Theorem prepared_ids_are_distinct {E : Type} (data : list (string * list string))
    (embedding_dict : list (string * list E)) (vs : list (Vector E)) :
  NoDup (map fst embedding_dict) ->
  prepare_vectors data embedding_dict = Ok vs ->
  NoDup (map id vs).
Proof.
  revert vs. induction embedding_dict as [|[p embs] rest IH]; intros vs Hkeys H.
  - inversion H. constructor.
  - cbn [prepare_vectors] in H.
    apply AgentProps.bind_ok in H as (fv & Hfv & H).
    apply AgentProps.bind_ok in H as (later & Hlater & H).
    inversion H; subst vs. inversion Hkeys as [|? ? Hp Hrest]; subst.
    rewrite map_app. apply NoDup_app.
    + rewrite (file_vectors_ids _ _ _ _ _ Hfv).
      apply CatFactsProps.NoDup_map_injective; [|apply seq_NoDup].
      intros x y Hxy. now apply vector_id_injective in Hxy.
    + now apply IH.
    + intros a Ha Hb. rewrite (file_vectors_ids _ _ _ _ _ Hfv) in Ha.
      apply in_map_iff in Ha as (i & <- & _).
      apply in_map_iff in Hb as (v & Hv & Hin).
      pose proof (prepare_vectors_ids _ _ _ Hlater) as Hall.
      rewrite Forall_forall in Hall. destruct (Hall v Hin) as (q & j & Hq & Hid).
      rewrite Hid in Hv. apply vector_id_injective in Hv as [-> _]. contradiction.
Qed.

(** *** Loading the documents *)

Lemma endswith_spec (suffix s : string) :
  endswith suffix s = true <-> exists stem, s = stem ++ suffix.
Proof.
  induction s as [|c s IH]; cbn [endswith]; rewrite orb_true_iff, String.eqb_eq.
  - split.
    + intros [->|H]; [now exists EmptyString | discriminate].
    + intros ([|c stem] & H); [now left | discriminate].
  - rewrite IH. split.
    + intros [->|(stem & ->)]; [now exists EmptyString | now exists (String c stem)].
    + intros ([|c' stem] & H); [now left|].
      inversion H; subst. right. now exists stem.
Qed.

Lemma tokens_of_ok (tiktoken : Tiktoken) (f : FileEntry) (encoding : Encoding)
    (token_ids : list Z) :
  tokens_of tiktoken f = Ok (encoding, token_ids) <->
  exists full_text,
    reading f = Ok full_text /\
    encoding_for_model tiktoken "gpt-3.5-turbo" = Ok encoding /\
    encode encoding (strip full_text) = Ok token_ids.
Proof.
  unfold tokens_of. split.
  - intros H.
    apply AgentProps.bind_ok in H as (full_text & Hread & H).
    apply AgentProps.bind_ok in H as (enc & Hmodel & H).
    apply AgentProps.bind_ok in H as (ids & Hencode & H).
    inversion H; subst. now exists full_text.
  - intros (full_text & Hread & Hmodel & Hencode).
    rewrite Hread. cbn [bind]. rewrite Hmodel. cbn [bind]. rewrite Hencode. reflexivity.
Qed.

(** The [try] of [load_passages] on one file that was read. *)
Lemma chunks_500_100 (fuel : nat) (tiktoken : Tiktoken) (f : FileEntry) (full_text : string) :
  reading f = Ok full_text ->
  (forall encoding token_ids,
      tokens_of tiktoken f = Ok (encoding, token_ids) -> List.length token_ids < fuel) ->
  chunk_text_by_tokens fuel tiktoken (strip full_text) 500 100 "gpt-3.5-turbo"
  = match tokens_of tiktoken f with
    | Ok (encoding, token_ids) => Some (Ok (chunks_of encoding token_ids))
    | Raise e => Some (Raise e)
    end.
Proof.
  intros Hread Hfuel. unfold tokens_of in *. rewrite Hread in *. cbn [bind] in *.
  destruct (encoding_for_model tiktoken "gpt-3.5-turbo") as [encoding|e] eqn:Hmodel;
    cbn [bind] in *.
  - destruct (encode encoding (strip full_text)) as [token_ids|e] eqn:Hencode; cbn [bind] in *.
    + apply VectorStoreProps.chunker_windows with (encoding := encoding);
        [lia | assumption | assumption | now apply (Hfuel encoding token_ids)].
    + now apply VectorStoreProps.chunker_refused_text with (encoding := encoding).
  - now apply VectorStoreProps.chunker_unknown_model.
Qed.

Lemma setitem_fresh {V : Type} (d : list (string * V)) (key : string) (value : V) :
  ~ In key (map fst d) -> setitem d key value = (d ++ [(key, value)])%list.
Proof.
  induction d as [|[k v] d IH]; cbn [setitem map fst app In]; intros H; [reflexivity|].
  destruct (String.eqb_spec k key) as [->|_]; [exfalso; auto|].
  rewrite IH; [reflexivity | auto].
Qed.

Lemma load_from_spec (fuel : nat) (tiktoken : Tiktoken) (files : list FileEntry) :
  forall passages : list (string * list string),
    NoDup (map relative_path files) ->
    (forall f, In f files -> ~ In (relative_path f) (map fst passages)) ->
    (forall f encoding token_ids,
        In f files -> tokens_of tiktoken f = Ok (encoding, token_ids) ->
        List.length token_ids < fuel) ->
    load_from fuel tiktoken files passages
    = Some (passages ++ map (loaded tiktoken) (filter (loadable tiktoken) files))%list.
Proof.
  induction files as [|f files IH]; intros passages Hnodup Hfresh Hfuel.
  - cbn. now rewrite app_nil_r.
  - inversion Hnodup as [|? ? Hf Hfiles]; subst.
    assert (Hrest : forall g encoding token_ids,
               In g files -> tokens_of tiktoken g = Ok (encoding, token_ids) ->
               List.length token_ids < fuel)
      by (intros g enc ids Hg; apply Hfuel; now right).
    assert (Hskip : load_from fuel tiktoken files passages
                    = Some (passages
                            ++ map (loaded tiktoken) (filter (loadable tiktoken) files))%list)
      by (apply IH; auto; intros g Hg; apply Hfresh; now right).
    cbn [load_from filter]. unfold loadable at 1.
    destruct (endswith ".md" (file f)); cbn [andb]; [|exact Hskip].
    destruct (reading f) as [full_text|e] eqn:Hread.
    + rewrite (chunks_500_100 fuel tiktoken f full_text Hread)
        by (intros enc ids; apply Hfuel; now left).
      destruct (tokens_of tiktoken f) as [[encoding token_ids]|e] eqn:Htok; [|exact Hskip].
      rewrite setitem_fresh by (apply Hfresh; now left).
      rewrite IH; auto.
      * cbn [map]. unfold loaded at 2. rewrite Htok, <- app_assoc. reflexivity.
      * intros g Hg Hin. rewrite map_app in Hin. apply in_app_or in Hin as [Hin|[Heq|[]]].
        -- apply (Hfresh g); [now right | exact Hin].
        -- cbn in Heq. apply Hf. rewrite Heq. now apply in_map.
    + unfold tokens_of. rewrite Hread. cbn [bind]. exact Hskip.
Qed.

(** X8: [load_passages] gives one entry for every file whose name ends in
    [.md] and that went through the [try]: it was read and its stripped text
    encoded. The entries come in walk order, each with the path of its file
    and the chunks of 500 tokens that start every 400 tokens. Every other
    file is left out without stopping the load or touching the other
    entries: a file with another ending, a file that cannot be read, and a
    file whose text the tokenizer refuses. *)
Theorem load_passages_skips_failures (fuel : nat) (tiktoken : Tiktoken)
    (files : list FileEntry) :
  NoDup (map relative_path files) ->
  (forall f full_text encoding token_ids,
      In f files ->
      reading f = Ok full_text ->
      encoding_for_model tiktoken "gpt-3.5-turbo" = Ok encoding ->
      encode encoding (strip full_text) = Ok token_ids ->
      List.length token_ids < fuel) ->
  exists (keep : FileEntry -> bool) (entry : FileEntry -> string * list string),
    (forall f,
        keep f = true <->
        (exists stem, file f = stem ++ ".md") /\
        (exists full_text encoding token_ids,
            reading f = Ok full_text /\
            encoding_for_model tiktoken "gpt-3.5-turbo" = Ok encoding /\
            encode encoding (strip full_text) = Ok token_ids)) /\
    (forall f full_text encoding token_ids,
        reading f = Ok full_text ->
        encoding_for_model tiktoken "gpt-3.5-turbo" = Ok encoding ->
        encode encoding (strip full_text) = Ok token_ids ->
        entry f
        = (relative_path f,
           map (fun k => decode encoding (window token_ids 500 100 k))
             (seq 0 (chunk_count (List.length token_ids) 400)))) /\
    load_passages fuel tiktoken files = Some (map entry (filter keep files)).
Proof.
  intros Hnodup Hfuel.
  exists (loadable tiktoken), (loaded tiktoken). split; [|split].
  - intros f. unfold loadable. rewrite andb_true_iff, endswith_spec. split.
    + intros [Hmd Htok]. split; [exact Hmd|].
      destruct (tokens_of tiktoken f) as [[encoding token_ids]|e] eqn:H; [|discriminate].
      apply tokens_of_ok in H as (full_text & H). now exists full_text, encoding, token_ids.
    + intros [Hmd (full_text & encoding & token_ids & H)]. split; [exact Hmd|].
      assert (Htok : tokens_of tiktoken f = Ok (encoding, token_ids))
        by (apply tokens_of_ok; now exists full_text).
      now rewrite Htok.
  - intros f full_text encoding token_ids Hread Hmodel Hencode.
    assert (Htok : tokens_of tiktoken f = Ok (encoding, token_ids))
      by (apply tokens_of_ok; now exists full_text).
    unfold loaded. now rewrite Htok.
  - unfold load_passages. rewrite load_from_spec; [reflexivity | exact Hnodup | |].
    + intros f _ [].
    + intros f encoding token_ids Hin Htok.
      apply tokens_of_ok in Htok as (full_text & Hread & Hmodel & Hencode).
      now apply (Hfuel f full_text encoding token_ids).
Qed.

(** *** On the samples *)

Lemma prepared_ids_are_distinct_witness :
  NoDup (map id [mkVector "vision.md_0" 11 "vision.md" "first";
                 mkVector "vision.md_1" 22 "vision.md" "second";
                 mkVector "api/prompt_caching.md_0" 33 "api/prompt_caching.md" "only"]).
Proof.
  apply (prepared_ids_are_distinct Samples.chunked_files Samples.file_embeddings).
  - constructor; [intros [H|[]]; discriminate|].
    constructor; [intros []|]. constructor.
  - reflexivity.
Defined.

Lemma load_passages_skips_failures_witness :
  exists (keep : FileEntry -> bool) (entry : FileEntry -> string * list string),
    (forall f,
        keep f = true <->
        (exists stem, file f = stem ++ ".md") /\
        (exists full_text encoding token_ids,
            reading f = Ok full_text /\
            encoding_for_model char_tiktoken "gpt-3.5-turbo" = Ok encoding /\
            encode encoding (strip full_text) = Ok token_ids)) /\
    (forall f full_text encoding token_ids,
        reading f = Ok full_text ->
        encoding_for_model char_tiktoken "gpt-3.5-turbo" = Ok encoding ->
        encode encoding (strip full_text) = Ok token_ids ->
        entry f
        = (relative_path f,
           map (fun k => decode encoding (window token_ids 500 100 k))
             (seq 0 (chunk_count (List.length token_ids) 400)))) /\
    load_passages 20 char_tiktoken Samples.walked_files
    = Some (map entry (filter keep Samples.walked_files)).
Proof.
  apply (load_passages_skips_failures 20 char_tiktoken Samples.walked_files).
  - constructor; [intros [H|[H|[H|[H|[]]]]]; discriminate|].
    constructor; [intros [H|[H|[H|[]]]]; discriminate|].
    constructor; [intros [H|[H|[]]]; discriminate|].
    constructor; [intros [H|[]]; discriminate|].
    constructor; [intros []|]. constructor.
  - intros f full_text encoding token_ids [<-|[<-|[<-|[<-|[<-|[]]]]]] Hread Hmodel Hencode;
      inversion Hread; subst; inversion Hmodel; subst; inversion Hencode; subst;
      simpl; lia.
Defined.

(** The load of the sample directory: the text file, the file that cannot be
    read and the file that names a special token are left out. *)
Lemma sample_load :
  load_passages 20 char_tiktoken Samples.walked_files
  = Some [("vision.md", ["Vision guide"]); ("api/batches.md", ["Batches"])].
Proof. vm_compute. reflexivity. Qed.

End IngestProps.

(** ** The conversation loop over several calls *)

Module AgentMore.

Import Agent AgentProps.

Section Loop.

Variable index : CatFactsIndex.

Lemma prior_manager (st : State) : prior (Some (manager st)) = history st.
Proof. reflexivity. Qed.

Lemma chatbot_interaction_history (replies : list (Result Response)) (user_message : string)
    (cm : option ConversationManager) :
  exists added,
    history (final_state (chatbot_interaction index replies user_message cm))
    = (prior cm ++ user_entry user_message :: added)%list /\
    Exchange index 0 added.
Proof.
  rewrite chatbot_interaction_eq.
  destruct (resume_exchange index replies
              {| manager := {| conversation_history := prior cm ++ [user_entry user_message] |};
                 log := [] |}) as (added & Hh & Hex).
  exists added. split; [|exact Hex].
  rewrite Hh. unfold history, get_messages; simpl. now rewrite <- app_assoc.
Qed.

(** X9: an exception raised by [client.messages.create] leaves
    [chatbot_interaction]; the user's message, appended before the request,
    and the messages of the completed rounds stay in the manager, so that a
    second call with the same manager and message holds the message
    twice. *)
Theorem model_failure_keeps_the_message (requests : list Response) (msgs : list Message)
    (e : Exn) (rest : list (Result Response)) (user_message : string)
    (cm : option ConversationManager) :
  forallb requests_tool requests = true ->
  transcript index 0 requests = Ok msgs ->
  exists st,
    chatbot_interaction index (map Ok requests ++ Raise e :: rest) user_message cm
    = Raised e st /\
    history st = (prior cm ++ user_entry user_message :: msgs)%list /\
    model_calls (log st) = S (List.length requests) /\
    tool_calls (log st) = List.length requests /\
    forall replies,
    exists added,
      history (final_state
                 (chatbot_interaction index replies user_message (Some (manager st))))
      = (prior cm ++ user_entry user_message :: msgs
         ++ user_entry user_message :: added)%list.
Proof.
  intros Hall Htr.
  destruct (chatbot_interaction_serviced index requests msgs (Raise e :: rest)
              user_message cm Hall Htr) as (st' & Heq & Hh & Hm & Ht).
  exists (record (ModelCall (history st')) st').
  split; [exact Heq|]. rewrite history_record, log_record.
  rewrite model_calls_snoc_model, tool_calls_snoc_model.
  repeat split; auto.
  intros replies.
  destruct (chatbot_interaction_history replies user_message
              (Some (manager (record (ModelCall (history st')) st')))) as (added & Ha & _).
  exists added. rewrite Ha, prior_manager, history_record, Hh, <- app_assoc. reflexivity.
Qed.

Lemma resume_first_request (replies : list (Result Response)) :
  forall st : State,
  exists later,
    log (final_state (resume index replies st))
    = (log st ++ ModelCall (history st) :: later)%list.
Proof.
  induction replies as [|[r|e] replies IH]; intros st;
    try (exists []; reflexivity).
  unfold resume. rewrite tool_loop_eq.
  set (st1 := record (ModelCall (history st)) st).
  destruct (requests_tool r);
    [destruct (next_tool_use (content r)) as [tu|e];
     [destruct (process_tool_call index (tool_calls (log st1)) (name tu) (input tu))
        as [v|e] |] |];
    try (exists []; reflexivity).
  - destruct (IH (after_round st1 r tu v)) as (later & Hl).
    eexists. rewrite Hl, log_after_round. unfold st1. rewrite log_record, <- !app_assoc.
    reflexivity.
  - eexists. cbn [final_state]. rewrite log_record. unfold st1.
    rewrite log_record, <- app_assoc. reflexivity.
Qed.

(** X10: a conversation kept in one manager over two calls: the second call
    sends the history left by the first, then the new message, and what the
    two calls add are tool rounds only; the answer that the first call
    returned is not part of what the model is sent. *)
Theorem interactions_compose (replies1 replies2 : list (Result Response))
    (message1 message2 : string) (cm : option ConversationManager)
    (answer : option string) (st1 : State) :
  chatbot_interaction index replies1 message1 cm = Returned answer st1 ->
  exists added1 added2 later,
    history st1 = (prior cm ++ user_entry message1 :: added1)%list /\
    Exchange index 0 added1 /\
    history (final_state
               (chatbot_interaction index replies2 message2 (Some (manager st1))))
    = (history st1 ++ user_entry message2 :: added2)%list /\
    Exchange index 0 added2 /\
    log (final_state (chatbot_interaction index replies2 message2 (Some (manager st1))))
    = ModelCall (history st1 ++ [user_entry message2]) :: later.
Proof.
  intros H1.
  destruct (chatbot_interaction_history replies1 message1 cm) as (added1 & Ha1 & Hex1).
  rewrite H1 in Ha1. cbn [final_state] in Ha1.
  destruct (chatbot_interaction_history replies2 message2 (Some (manager st1)))
    as (added2 & Ha2 & Hex2).
  rewrite prior_manager in Ha2.
  rewrite chatbot_interaction_eq in *.
  destruct (resume_first_request replies2
              {| manager := {| conversation_history :=
                                 prior (Some (manager st1)) ++ [user_entry message2] |};
                 log := [] |}) as (later & Hl).
  exists added1, added2, later. repeat split; auto.
Qed.

Lemma resume_counts (replies : list (Result Response)) :
  forall st : State,
  exists k,
    model_calls (log (final_state (resume index replies st)))
    = model_calls (log st) + 1 + k /\
    List.length (history (final_state (resume index replies st)))
    = List.length (history st) + 2 * k /\
    tool_calls (log st) + k <= tool_calls (log (final_state (resume index replies st)))
    <= tool_calls (log st) + k + 1 /\
    forall answer st',
      resume index replies st = Returned answer st' ->
      tool_calls (log st') = tool_calls (log st) + k.
Proof.
  induction replies as [|[r|e] replies IH]; intros st;
    try (exists 0; cbn [resume final_state];
         rewrite history_record, log_record, model_calls_snoc_model, tool_calls_snoc_model;
         split; [lia | split; [lia | split; [lia | discriminate]]]).
  unfold resume. rewrite tool_loop_eq.
  set (st1 := record (ModelCall (history st)) st).
  assert (Hm1 : model_calls (log st1) = S (model_calls (log st)))
    by apply model_calls_snoc_model.
  assert (Ht1 : tool_calls (log st1) = tool_calls (log st))
    by apply tool_calls_snoc_model.
  assert (Hh1 : history st1 = history st) by reflexivity.
  clearbody st1.
  destruct (requests_tool r);
    [destruct (next_tool_use (content r)) as [tu|e];
     [destruct (process_tool_call index (tool_calls (log st1)) (name tu) (input tu))
        as [v|e] |] |].
  - destruct (IH (after_round st1 r tu v)) as (k & Hm & Hh & Ht & Hret).
    rewrite history_after_round, length_app, Hh1 in Hh. cbn [List.length] in Hh.
    rewrite log_after_round, model_calls_snoc_tool in Hm.
    rewrite log_after_round, tool_calls_snoc_tool in Ht, Hret.
    exists (S k). split; [lia | split; [lia | split; [lia|]]].
    intros answer st' H. rewrite (Hret _ _ H). lia.
  - exists 0. cbn [final_state]. rewrite history_record, log_record.
    rewrite model_calls_snoc_tool, tool_calls_snoc_tool, Hh1.
    split; [lia | split; [lia | split; [lia | discriminate]]].
  - exists 0. cbn [final_state]. rewrite Hh1.
    split; [lia | split; [lia | split; [lia | discriminate]]].
  - exists 0. cbn [final_state]. rewrite Hh1.
    split; [lia | split; [lia | split; [lia|]]].
    intros answer st' H. inversion H; subst. lia.
Qed.

(** X11: however the call ends, the requests to the model, the tool calls
    and the history keep in step: with [m] requests sent, the history has
    grown by the user's message and [m - 1] pairs of messages, and
    [m - 1] or [m] tool calls were made, [m - 1] when the call returns. *)
Theorem requests_tools_and_history_in_step (replies : list (Result Response))
    (user_message : string) (cm : option ConversationManager) :
  let outcome := chatbot_interaction index replies user_message cm in
  let m := model_calls (log (final_state outcome)) in
  1 <= m /\
  List.length (history (final_state outcome)) = List.length (prior cm) + 1 + 2 * (m - 1) /\
  m - 1 <= tool_calls (log (final_state outcome)) <= m /\
  forall answer st, outcome = Returned answer st -> tool_calls (log st) = m - 1.
Proof.
  cbv zeta. rewrite chatbot_interaction_eq.
  set (st0 := {| manager := {| conversation_history := prior cm ++ [user_entry user_message] |};
                 log := [] |}).
  destruct (resume_counts replies st0) as (k & Hm & Hh & Ht & Hret).
  change (model_calls (log st0)) with 0 in Hm.
  change (tool_calls (log st0)) with 0 in Ht, Hret.
  assert (Hh0 : List.length (history st0) = List.length (prior cm) + 1).
  { unfold history, get_messages, st0; cbn. rewrite length_app. reflexivity. }
  rewrite Hm, Hh, Hh0. split; [lia | split; [lia | split; [lia|]]].
  intros answer st H. rewrite (Hret _ _ H). lia.
Qed.

(** X18: among the results of [process_tool_call] only that of an unknown
    tool reads [None]: the text [None] that the model is sent as a tool
    result tells it that the tool does not exist, and nothing else. *)
Theorem None_marks_unknown_tool (n : nat) (tool_name : string) (tool_input : Dict)
    (tool_result : PyValue) :
  process_tool_call index n tool_name tool_input = Ok tool_result ->
  (str tool_result = "None" <->
   tool_name <> "search_cat_facts" /\
   tool_name <> "check_vet_availability" /\
   tool_name <> "book_appointment").
Proof.
  unfold process_tool_call, search_cat_facts.
  destruct (String.eqb_spec tool_name "search_cat_facts") as [->|H1].
  - intros H. apply bind_ok in H as (query & _ & H). apply bind_ok in H as (texts & _ & H).
    inversion H; subst. split; [discriminate | intros (Hn & _); now elim Hn].
  - destruct (String.eqb_spec tool_name "check_vet_availability") as [->|H2].
    + intros H. inversion H; subst. split; [discriminate | intros (_ & Hn & _); now elim Hn].
    + destruct (String.eqb_spec tool_name "book_appointment") as [->|H3].
      * intros H. apply bind_ok in H as (day & _ & H). apply bind_ok in H as (time & _ & H).
        inversion H; subst. split; [discriminate | intros (_ & _ & Hn); now elim Hn].
      * intros H. inversion H; subst. split; [auto | reflexivity].
Qed.

End Loop.

(** *** On the samples *)

Lemma model_failure_keeps_the_message_witness :
  exists st,
    chatbot_interaction Demo.facts_index
      (map Ok [Demo.booking_request] ++ Raise (ExternalError "Overloaded") :: [])
      "Book it" None
    = Raised (ExternalError "Overloaded") st /\
    history st
    = (prior None
       ++ user_entry "Book it"
          :: [assistant_message Demo.booking_request;
              tool_result_message
                {| id := "toolu_01HjYb3mfs7jGM3J7ebuBVPc";
                   input := [("day", PyStr "Thursday"); ("time", PyStr "12:00-14:00")];
                   name := "book_appointment" |}
                (book_appointment (PyStr "Thursday") (PyStr "12:00-14:00"))])%list /\
    model_calls (log st) = 2 /\
    tool_calls (log st) = 1 /\
    forall replies,
    exists added,
      history (final_state
                 (chatbot_interaction Demo.facts_index replies "Book it" (Some (manager st))))
      = (prior None
         ++ user_entry "Book it"
            :: [assistant_message Demo.booking_request;
                tool_result_message
                  {| id := "toolu_01HjYb3mfs7jGM3J7ebuBVPc";
                     input := [("day", PyStr "Thursday"); ("time", PyStr "12:00-14:00")];
                     name := "book_appointment" |}
                  (book_appointment (PyStr "Thursday") (PyStr "12:00-14:00"))]
            ++ user_entry "Book it" :: added)%list.
Proof.
  apply (model_failure_keeps_the_message Demo.facts_index [Demo.booking_request]);
    reflexivity.
Defined.

Lemma interactions_compose_witness :
  exists added1 added2 later,
    history (final_state Samples.first_turn)
    = (prior None ++ user_entry Demo.toes_question :: added1)%list /\
    Exchange Demo.facts_index 0 added1 /\
    history (final_state
               (chatbot_interaction Demo.facts_index
                  [Ok Demo.booking_request; Ok Demo.booking_answer] "Book it"
                  (Some (manager (final_state Samples.first_turn)))))
    = (history (final_state Samples.first_turn) ++ user_entry "Book it" :: added2)%list /\
    Exchange Demo.facts_index 0 added2 /\
    log (final_state
           (chatbot_interaction Demo.facts_index
              [Ok Demo.booking_request; Ok Demo.booking_answer] "Book it"
              (Some (manager (final_state Samples.first_turn)))))
    = ModelCall (history (final_state Samples.first_turn) ++ [user_entry "Book it"]) :: later.
Proof.
  apply (interactions_compose Demo.facts_index
           [Ok Demo.toes_request; Ok Demo.toes_answer]
           [Ok Demo.booking_request; Ok Demo.booking_answer]
           Demo.toes_question "Book it" None (Some "A typical cat has 18 toes.")
           (final_state Samples.first_turn)).
  reflexivity.
Defined.

Lemma None_marks_unknown_tool_witness :
  str PyNone = "None" <->
  "add" <> "search_cat_facts" /\
  "add" <> "check_vet_availability" /\
  "add" <> "book_appointment".
Proof.
  apply (None_marks_unknown_tool Demo.facts_index 0 "add" [("a", PyInt 2); ("b", PyInt 3)]).
  reflexivity.
Defined.

End AgentMore.

(** ** The chunker on the whole text *)

Module ChunkerMore.

Import VectorStore VectorStoreProps.

Open Scope Z_scope.

(** *** The leading parts of the windows *)

Lemma strides_tile {A : Type} (step : nat) :
  (0 < step)%nat ->
  forall (count : nat) (l : list A),
    (List.length l <= count * step)%nat ->
    List.concat (map (fun k => firstn step (skipn (k * step) l)) (seq 0 count)) = l.
Proof.
  intros Hstep. induction count as [|count IH]; intros l Hlen.
  - destruct l; [reflexivity | simpl in Hlen; lia].
  - cbn [seq map List.concat]. rewrite <- seq_shift, map_map.
    change (skipn (0 * step) l) with l.
    transitivity (firstn step l ++ skipn step l)%list; [|apply firstn_skipn].
    f_equal. rewrite <- (IH (skipn step l)) by (rewrite length_skipn; simpl in Hlen; lia).
    f_equal. apply map_ext. intros k.
    rewrite skipn_skipn. f_equal. f_equal. simpl. lia.
Qed.

(** X12: no token is lost. For [0 <= overlap < chunk_size] the chunks of a
    text that the tokenizer encodes are the decoded windows of the token
    list, and the first [chunk_size - overlap] tokens of every window, put
    end to end, are the tokens of the text. *)
Theorem chunks_cover_the_text (fuel : nat) (tiktoken : Tiktoken) (encoding : Encoding)
    (text : string) (token_ids : list Z) (chunk_size overlap : Z) (model_name : string) :
  0 <= overlap < chunk_size ->
  encoding_for_model tiktoken model_name = Ok encoding ->
  encode encoding text = Ok token_ids ->
  (List.length token_ids < fuel)%nat ->
  exists windows,
    chunk_text_by_tokens fuel tiktoken text chunk_size overlap model_name
    = Some (Ok (map (decode encoding) windows)) /\
    List.concat (map (firstn (Z.to_nat (chunk_size - overlap))) windows)
    = token_ids.
Proof.
  intros Hov Hmodel Hencode Hfuel.
  set (count := chunk_count (List.length token_ids) (chunk_size - overlap)).
  assert (Hstep : 0 < chunk_size - overlap) by lia.
  exists (map (window token_ids chunk_size overlap) (seq 0 count)). split.
  - rewrite map_map. now apply chunker_windows.
  - rewrite map_map.
    rewrite (map_ext _ (fun k => firstn (Z.to_nat (chunk_size - overlap))
                                   (skipn (k * Z.to_nat (chunk_size - overlap)) token_ids))).
    + apply strides_tile; [lia|].
      destruct (Nat.le_gt_cases (List.length token_ids)
                  (count * Z.to_nat (chunk_size - overlap))) as [H|H]; [exact H|].
      assert (Hlt : Z.of_nat count * (chunk_size - overlap) < Z.of_nat (List.length token_ids))
        by lia.
      apply lt_chunk_count in Hlt; [|exact Hstep]. fold count in Hlt. lia.
    + intros k. rewrite window_nat by exact Hov. rewrite firstn_firstn. f_equal. lia.
Qed.

(** X13: when the loop of the chunker ends. A text without tokens gives no
    chunk, whatever the sizes; on a text with a token the loop ends exactly
    when [overlap < chunk_size], and otherwise it runs on for ever. A text
    that [encode] refuses never reaches the loop. *)
Theorem chunker_ends_iff_stride_positive (tiktoken : Tiktoken) (text : string)
    (chunk_size overlap : Z) (model_name : string) :
  (forall encoding,
      encoding_for_model tiktoken model_name = Ok encoding ->
      encode encoding text = Ok [] ->
      forall fuel,
        chunk_text_by_tokens (S fuel) tiktoken text chunk_size overlap model_name
        = Some (Ok [])) /\
  (forall encoding token_ids,
      encoding_for_model tiktoken model_name = Ok encoding ->
      encode encoding text = Ok token_ids ->
      token_ids <> [] ->
      ((exists fuel result,
           chunk_text_by_tokens fuel tiktoken text chunk_size overlap model_name
           = Some result)
       <-> overlap < chunk_size)) /\
  (forall encoding e,
      encoding_for_model tiktoken model_name = Ok encoding ->
      encode encoding text = Raise e ->
      forall fuel,
        chunk_text_by_tokens fuel tiktoken text chunk_size overlap model_name
        = Some (Raise e)).
Proof.
  split; [|split].
  - intros encoding Hmodel Hempty fuel.
    now rewrite (chunker_encoded_text _ _ _ _ _ _ _ _ Hmodel Hempty).
  - intros encoding token_ids Hmodel Hencode Hne. split.
    + intros (fuel & result & H).
      destruct (Z.lt_ge_cases overlap chunk_size) as [Hlt|Hge]; [exact Hlt|].
      rewrite (chunker_runs_on_without_stride fuel tiktoken encoding text token_ids) in H
        by (lia || assumption).
      discriminate.
    + intros Hlt. exists (S (List.length token_ids)). eexists.
      apply chunker_windows with (encoding := encoding); [lia | exact Hmodel | exact Hencode | lia].
  - intros encoding e Hmodel Hencode fuel. now apply chunker_refused_text with (encoding := encoding).
Qed.

(** *** On the samples *)

Lemma chunks_cover_the_text_witness :
  exists windows,
    chunk_text_by_tokens 10 char_tiktoken "abcdefghi" 5 2 "gpt-3.5-turbo"
    = Some (Ok (map (decode char_encoding) windows)) /\
    List.concat (map (firstn (Z.to_nat (5 - 2))) windows)
    = [97; 98; 99; 100; 101; 102; 103; 104; 105].
Proof.
  apply (chunks_cover_the_text 10 char_tiktoken char_encoding "abcdefghi"
           [97; 98; 99; 100; 101; 102; 103; 104; 105] 5 2 "gpt-3.5-turbo");
    [lia | reflexivity | reflexivity | simpl; lia].
Defined.

End ChunkerMore.

(** ** The document chatbot's loop *)

Module RagLoopProps.

Import Agent RagChat RagLoop.

(** *** The dispatcher *)

(** X14: the dispatcher of the document chatbot raises in two cases only:
    a required key is missing from the input of one of its two tools, or the
    search itself fails. A file that cannot be read and a tool name that it
    does not know are answered with a text. *)
Theorem dispatcher_raises_only_for_key_or_search (services : Services) (tool_name : string)
    (tool_input : Dict) (e : Exn) :
  process_tool_call services tool_name tool_input = Raise e <->
  (tool_name = "search_pinecone" /\
   (getitem tool_input "questions_to_search" = Raise e \/
    exists query,
      getitem tool_input "questions_to_search" = Ok query /\
      semantic_search services query = Raise e)) \/
  (tool_name = "read_full_document" /\ getitem tool_input "file_path" = Raise e).
Proof.
  unfold process_tool_call.
  destruct (String.eqb_spec tool_name "search_pinecone") as [->|Hs].
  - destruct (getitem tool_input "questions_to_search") as [query|e'] eqn:Hq; cbn [bind].
    + destruct (semantic_search services query) as [ms|e'] eqn:Hm; cbn [bind]; split.
      * discriminate.
      * intros [(_ & [H | (q & Hq' & H)]) | (H & _)]; congruence.
      * intros H. left. split; [reflexivity|]. right. exists query. split; congruence.
      * intros [(_ & [H | (q & Hq' & H)]) | (H & _)]; congruence.
    + split.
      * intros H. left. split; [reflexivity | now left].
      * intros [(_ & [H | (q & Hq' & _)]) | (H & _)]; congruence.
  - destruct (String.eqb_spec tool_name "read_full_document") as [->|Hr].
    + destruct (getitem tool_input "file_path") as [p|e'] eqn:Hp; cbn [bind]; split.
      * discriminate.
      * intros [(H & _) | (_ & H)]; congruence.
      * intros H. right. now split.
      * intros [(H & _) | (_ & H)]; congruence.
    + split; [discriminate|]. intros [(H & _) | (H & _)]; contradiction.
Qed.

(** *** The equations of the loop *)

Lemma rag_loop_eq (services : Services) (replies : list (Result Response))
    (response : Response) (st : State) :
  rag_loop services replies response st =
  if String.eqb (stop_reason response) "tool_use" then
    match next_tool_use (content response) with
    | Raise e => Raised e st
    | Ok tu =>
        match process_tool_call services (name tu) (input tu) with
        | Raise e =>
            Raised e (mkState (messages_history st)
                        (log st ++ [ToolCall (name tu) (input tu)]))
        | Ok result =>
            proceed services replies
              (mkState (messages_history st ++ round_entries response tu result)
                 (log st ++ [ToolCall (name tu) (input tu)]))
        end
    end
  else Returned (first_text (content response)) st.
Proof.
  unfold proceed.
  destruct replies as [|[r|e] replies]; cbn [rag_loop];
    destruct (String.eqb (stop_reason response) "tool_use"); try reflexivity;
    destruct (next_tool_use (content response)) as [tu|e']; try reflexivity;
    destruct (process_tool_call services (name tu) (input tu)); reflexivity.
Qed.

(** X15: a tool round of [chat_with_rag] does not raise for an unknown tool
    or for a document that cannot be read: the model is sent a tool result
    with the text [Unknown tool: ...] or [Error reading file ...], under the
    id of the request, and the loop goes on to its next request. *)
Theorem tool_failures_are_answered (services : Services) (replies : list (Result Response))
    (response : Response) (st : State) (tu : ToolUse) :
  stop_reason response = "tool_use" ->
  next_tool_use (content response) = Ok tu ->
  (name tu <> "search_pinecone" /\ name tu <> "read_full_document") \/
  (name tu = "read_full_document" /\
   exists path e,
     getitem (input tu) "file_path" = Ok path /\ read_file services path = inr e) ->
  exists text,
    rag_loop services replies response st
    = proceed services replies
        (mkState
           (messages_history st
            ++ [mkMessage "assistant" (Blocks (content response));
                mkMessage "user"
                  (Dicts [[("type", PyStr "tool_result");
                           ("tool_use_id", PyStr (id tu));
                           ("content", PyStr text)]])])
           (log st ++ [ToolCall (name tu) (input tu)])) /\
    (name tu <> "read_full_document" -> text = "Unknown tool: " ++ name tu) /\
    (forall path e,
        name tu = "read_full_document" ->
        getitem (input tu) "file_path" = Ok path ->
        read_file services path = inr e ->
        text = "Error reading file " ++ str path ++ ": " ++ e).
Proof.
  intros Hstop Htu Hcase. rewrite rag_loop_eq, Htu.
  apply String.eqb_eq in Hstop. rewrite Hstop. unfold process_tool_call.
  destruct Hcase as [[Hs Hr] | (Hr & path & e & Hpath & Hread)].
  - apply String.eqb_neq in Hs, Hr. rewrite Hs, Hr.
    exists ("Unknown tool: " ++ name tu). split; [reflexivity|]. split; [reflexivity|].
    intros p e Hn. apply String.eqb_neq in Hr. contradiction.
  - destruct (String.eqb_spec (name tu) "search_pinecone") as [Hs|_];
      [rewrite Hr in Hs; discriminate|].
    destruct (String.eqb_spec (name tu) "read_full_document") as [_|Hn]; [|contradiction].
    rewrite Hpath. cbn [bind]. unfold read_full_document. rewrite Hread.
    exists ("Error reading file " ++ str path ++ ": " ++ e).
    split; [reflexivity|]. split; [intros Hn; contradiction|].
    intros p e' _ Hp He. inversion Hp; subst.
    rewrite Hread in He. now inversion He.
Qed.

(** *** The requests of a call *)

Lemma proceed_later_requests (services : Services) (query : string)
    (replies : list (Result Response)) :
  forall st : State,
    (exists more, messages_history st = mkMessage "user" (Plain query) :: more) ->
    exists later,
      log (final_state (proceed services replies st)) = (log st ++ later)%list /\
      Forall (later_event query) later.
Proof.
  induction replies as [|[r|e] replies IH]; intros st Hst;
    try (exists [Request None (messages_history st)]; split; [reflexivity|];
         constructor; [split; [reflexivity | exact Hst] | constructor]).
  unfold proceed. rewrite rag_loop_eq.
  set (st1 := mkState (messages_history st) (log st ++ [Request None (messages_history st)])).
  assert (Hreq : later_event query (Request None (messages_history st)))
    by (split; [reflexivity | exact Hst]).
  destruct (String.eqb (stop_reason r) "tool_use");
    [destruct (next_tool_use (content r)) as [tu|e];
     [destruct (process_tool_call services (name tu) (input tu)) as [v|e] |] |];
    try (exists [Request None (messages_history st)]; split; [reflexivity|];
         constructor; [exact Hreq | constructor]).
  - destruct (IH (mkState (messages_history st1 ++ round_entries r tu v)
                    (log st1 ++ [ToolCall (name tu) (input tu)]))) as (later & Hl & Hall).
    { destruct Hst as (more & Hmore). cbn [messages_history st1]. rewrite Hmore.
      eexists. reflexivity. }
    exists (Request None (messages_history st) :: ToolCall (name tu) (input tu) :: later).
    split.
    + rewrite Hl. cbn [log st1]. rewrite <- !app_assoc. reflexivity.
    + constructor; [exact Hreq|]. constructor; [exact I | exact Hall].
  - exists [Request None (messages_history st); ToolCall (name tu) (input tu)]. split.
    + cbn [final_state log st1]. rewrite <- app_assoc. reflexivity.
    + constructor; [exact Hreq|]. constructor; [exact I | constructor].
Qed.

(** X16: only the first request of [chat_with_rag] carries the [system]
    text, with the query as its one message; every later request of the call
    carries no [system] text, and messages that begin with the query. *)
Theorem system_text_in_first_request_only (services : Services)
    (replies : list (Result Response)) (query : string) :
  exists later,
    log (final_state (chat_with_rag services replies query))
    = Request (Some system_prompt) [mkMessage "user" (Plain query)] :: later /\
    Forall (later_event query) later.
Proof.
  unfold chat_with_rag.
  destruct replies as [|[r|e] replies]; try (exists []; split; [reflexivity | constructor]).
  rewrite rag_loop_eq.
  set (st0 := mkState [mkMessage "user" (Plain query)]
                [Request (Some system_prompt) [mkMessage "user" (Plain query)]]).
  change (log (mkState [] [Request (Some system_prompt) [mkMessage "user" (Plain query)]]))
    with (log st0).
  change (mkState [mkMessage "user" (Plain query)] (log st0)) with st0.
  destruct (String.eqb (stop_reason r) "tool_use");
    [destruct (next_tool_use (content r)) as [tu|e];
     [destruct (process_tool_call services (name tu) (input tu)) as [v|e] |] |];
    try (exists []; split; [reflexivity | constructor]).
  - destruct (proceed_later_requests services query replies
                (mkState (messages_history st0 ++ round_entries r tu v)
                   (log st0 ++ [ToolCall (name tu) (input tu)]))) as (later & Hl & Hall).
    { eexists. reflexivity. }
    exists (ToolCall (name tu) (input tu) :: later). split.
    + rewrite Hl. reflexivity.
    + constructor; [exact I | exact Hall].
  - exists [ToolCall (name tu) (input tu)]. split; [reflexivity|].
    constructor; [exact I | constructor].
Qed.

(** *** On the samples *)

Lemma tool_failures_are_answered_witness :
  exists text,
    rag_loop Demo.no_services [] Samples.read_request
      (mkState [mkMessage "user" (Plain "Where is the guide?")] [])
    = proceed Demo.no_services []
        (mkState
           ([mkMessage "user" (Plain "Where is the guide?")]
            ++ [mkMessage "assistant" (Blocks (content Samples.read_request));
                mkMessage "user"
                  (Dicts [[("type", PyStr "tool_result");
                           ("tool_use_id", PyStr "toolu_read");
                           ("content", PyStr text)]])])
           ([] ++ [ToolCall "read_full_document" [("file_path", PyStr "missing.md")]])) /\
    ("read_full_document" <> "read_full_document" ->
     text = "Unknown tool: " ++ "read_full_document") /\
    (forall path e,
        "read_full_document" = "read_full_document" ->
        getitem [("file_path", PyStr "missing.md")] "file_path" = Ok path ->
        read_file Demo.no_services path = inr e ->
        text = "Error reading file " ++ str path ++ ": " ++ e).
Proof.
  apply (tool_failures_are_answered Demo.no_services [] Samples.read_request
           (mkState [mkMessage "user" (Plain "Where is the guide?")] [])
           {| id := "toolu_read"; input := [("file_path", PyStr "missing.md")];
              name := "read_full_document" |}).
  - reflexivity.
  - reflexivity.
  - right. split; [reflexivity|].
    exists (PyStr "missing.md"), "No such file or directory". split; reflexivity.
Defined.

End RagLoopProps.

(** ** The routing graph *)

Module GraphProps.

Import Router Graph.

Lemma append_assoc (a b c : string) : (a ++ b) ++ c = a ++ b ++ c.
Proof. induction a as [|x a IH]; simpl; congruence. Qed.

Lemma printed_result (question answer : string) :
  str (PyDict [("query", PyStr question); ("result", PyStr answer)])
  = "{'query': " ++ repr_str question ++ ", 'result': " ++ repr_str answer ++ "}".
Proof.
  transitivity ("{" ++ (("'query': " ++ repr_str question)
                        ++ ", " ++ ("'result': " ++ repr_str answer)) ++ "}");
    [reflexivity|].
  rewrite !append_assoc. reflexivity.
Qed.

(** X17: a run of the routing graph on a state with a message adds exactly
    one message and cannot miss a node: the printed dict of the retrieval
    chain, query and answer, when the router's reply holds [cat_knowledge]
    in any mix of cases, and the reply of the general model in every other
    case. On a state without a message the run fails with [IndexError]. *)
Theorem invoke_adds_one_message (router_model cat_qa general_model : string -> string)
    (state : MessagesState) :
  (messages state = [] ->
   invoke router_model (workflow cat_qa general_model) state = Raise IndexError) /\
  (messages state <> [] ->
   let question := content (List.last (messages state) (mkGraphMessage EmptyString)) in
   invoke router_model (workflow cat_qa general_model) state
   = Ok (mkMessagesState
           (messages state
            ++ [mkGraphMessage
                  (if contains "cat_knowledge" (lower (reply_for router_model state))
                   then "{'query': " ++ repr_str question
                        ++ ", 'result': " ++ repr_str (cat_qa question) ++ "}"
                   else general_model question)]))).
Proof.
  split.
  - intros Hempty. unfold invoke, route_question. now rewrite Hempty.
  - intros Hne. cbv zeta. unfold invoke, route_question, reply_for.
    rewrite (RouterProps.last_message_ok _ (mkGraphMessage EmptyString) Hne). cbn [bind].
    destruct (contains "cat_knowledge" (lower _)).
    + change (Ingest.lookup (conditional_edges (workflow cat_qa general_model)) "cat_knowledge")
        with (@Ok string "cat_knowledge").
      cbn [bind].
      change (Ingest.lookup (nodes (workflow cat_qa general_model)) "cat_knowledge")
        with (Ok (handle_cat_question cat_qa)).
      cbn [bind]. unfold handle_cat_question.
      rewrite (RouterProps.last_message_ok _ (mkGraphMessage EmptyString) Hne). cbn [bind].
      now rewrite printed_result.
    + change (Ingest.lookup (conditional_edges (workflow cat_qa general_model))
                "general_knowledge")
        with (@Ok string "general_knowledge").
      cbn [bind].
      change (Ingest.lookup (nodes (workflow cat_qa general_model)) "general_knowledge")
        with (Ok (handle_general_question general_model)).
      cbn [bind]. unfold handle_general_question.
      now rewrite (RouterProps.last_message_ok _ (mkGraphMessage EmptyString) Hne).
Qed.

End GraphProps.
